(** * QFD scoring and classification engine

    A shallow embedding of [src/utils/qfdCalculations.ts] (the scoring,
    normalisation, classification and correlation analysis of the QFD
    builder), of the data model of [src/types/qfd.ts] and of the local
    correlation store of [src/hooks/useQFDData.ts].

    Modelling choices.
    - A TypeScript [number] holding a score, an importance, a difficulty or a
      percentage is a rational [Q]: arithmetic is exact, so the statements
      below are about the formulas and thresholds of the code, not about
      IEEE-754 rounding.  Equality of such numbers is [Qeq] ([==]).
    - The counters of [getCorrelationImpact] only ever hold integers and are
      modelled in [Z].
    - An optional identifier ([id?: string]) is an [option string]; JavaScript
      [===] on identifiers is decidable equality on that type.
    - The numeric enums are inductive types with their numeric value given by
      a function.
    - [Array.prototype.sort] on two strings is modelled with the
      lexicographic order of [String.ltb] (code-unit order on ASCII
      identifiers). *)

From Stdlib Require Import QArith Qminmax ZArith List String Bool Lia Lqa.
From Stdlib Require Import Permutation.
Import ListNotations.

Local Open Scope Q_scope.

(** ** Data model ([src/types/qfd.ts]) *)

Inductive RelationshipStrength : Type :=
| NONE_REL | WEAK | MEDIUM | STRONG.

(** The numeric value of the enum: NONE = 0, WEAK = 1, MEDIUM = 3,
    STRONG = 9. *)
Definition strengthValue (s : RelationshipStrength) : Q :=
  match s with
  | NONE_REL => 0
  | WEAK => 1
  | MEDIUM => 3
  | STRONG => 9
  end.

Inductive CorrelationType : Type :=
| NONE | POSITIVE | STRONG_POSITIVE | NEGATIVE | STRONG_NEGATIVE.

Definition correlationValue (c : CorrelationType) : Z :=
  match c with
  | NONE => 0
  | POSITIVE => 1
  | STRONG_POSITIVE => 2
  | NEGATIVE => -1
  | STRONG_NEGATIVE => -2
  end%Z.

Definition CorrelationType_eqb (a b : CorrelationType) : bool :=
  match a, b with
  | NONE, NONE
  | POSITIVE, POSITIVE
  | STRONG_POSITIVE, STRONG_POSITIVE
  | NEGATIVE, NEGATIVE
  | STRONG_NEGATIVE, STRONG_NEGATIVE => true
  | _, _ => false
  end.

Module CustomerRequirement.
Record t : Type := mk {
  id : option string;
  description : string;
  importance : Q;
  competitorRatings : list Q
}.
End CustomerRequirement.

Module TechnicalRequirement.
Record t : Type := mk {
  id : option string;
  description : string;
  unit : string;
  target : string;
  difficulty : Q;
  importance : Q
}.
End TechnicalRequirement.

Module Relationship.
Record t : Type := mk {
  customerReqId : string;
  technicalReqId : string;
  strength : RelationshipStrength
}.
End Relationship.

Module TechnicalCorrelation.
Record t : Type := mk {
  techReq1Id : string;
  techReq2Id : string;
  correlation : CorrelationType
}.
End TechnicalCorrelation.

Module QFDData.
Record t : Type := mk {
  customerRequirements : list CustomerRequirement.t;
  technicalRequirements : list TechnicalRequirement.t;
  relationships : list Relationship.t;
  technicalCorrelations : list TechnicalCorrelation.t;
  competitorNames : list string
}.
End QFDData.

Module TechnicalPriority.
Record t : Type := mk {
  id : option string;
  description : string;
  score : Q;
  relativeWeight : Q
}.
End TechnicalPriority.

Inductive Band : Type := Low | Medium | High | Critical.

Inductive Impact : Type := Isolated | Synergistic | Conflicted | Complex.

Module CorrelationImpactSummary.
Record t : Type := mk {
  totalCorrelations : Z;
  positiveCount : Z;
  negativeCount : Z;
  netImpact : Z;
  impact : Impact
}.
End CorrelationImpactSummary.

Module TargetImpactAnalysis.
Record t : Type := mk {
  id : option string;
  description : string;
  target : string;
  unit : string;
  difficulty : Q;
  priorityScore : Q;
  normalizedPriority : Q;
  implementationChallenge : Band;
  strategicImportance : Band;
  correlationImpact : CorrelationImpactSummary.t;
  recommendation : string
}.
End TargetImpactAnalysis.

Module CorrelationInsight.
Record t : Type := mk {
  req1 : string;
  req2 : string;
  correlation : CorrelationType;
  priority1Score : Q;
  priority2Score : Q;
  impact : string;
  recommendation : string
}.
End CorrelationInsight.

(** ** JavaScript primitives used by the engine *)

(** [a === b] on two possibly-undefined identifiers. *)
Definition id_eqb (a b : option string) : bool :=
  match a, b with
  | Some x, Some y => String.eqb x y
  | None, None => true
  | _, _ => false
  end.

(** [x > y] and [x >= y] on numbers. *)
Definition Qgtb (x y : Q) : bool := negb (Qle_bool x y).
Definition Qgeb (x y : Q) : bool := Qle_bool y x.

(** [x || 0] on a number: [0] is falsy, every other rational is truthy. *)
Definition orZero (x : Q) : Q := if Qeq_bool x 0 then 0 else x.

(** [Math.max(...args, last)]: the largest of the arguments. *)
Definition Math_max (args : list Q) (last : Q) : Q :=
  fold_right Qmax last args.

(** [xs.findIndex(f)], with [None] for the result [-1]. *)
Fixpoint findIndex {A : Type} (f : A -> bool) (xs : list A) : option nat :=
  match xs with
  | [] => None
  | x :: rest =>
      if f x then Some O
      else match findIndex f rest with
           | Some i => Some (S i)
           | None => None
           end
  end.

(** [xs.splice(i, 1)] on a copy of [xs]. *)
Fixpoint splice1 {A : Type} (i : nat) (xs : list A) : list A :=
  match xs, i with
  | [], _ => []
  | _ :: rest, O => rest
  | x :: rest, S j => x :: splice1 j rest
  end.

(** [xs[i] = v] on a copy of [xs], for an index inside the array (the only
    use in the source is at an index returned by [findIndex]). *)
Fixpoint setAt {A : Type} (i : nat) (v : A) (xs : list A) : list A :=
  match xs, i with
  | [], _ => []
  | _ :: rest, O => v :: rest
  | x :: rest, S j => x :: setAt j v rest
  end.

(** ** Priority Scorer *)

(** The callback of [data.relationships.find] in
    [calculateTechnicalPriorities]. *)
Definition relationshipMatches (custReq : CustomerRequirement.t)
    (techReq : TechnicalRequirement.t) (r : Relationship.t) : bool :=
  id_eqb (Some (Relationship.customerReqId r)) (CustomerRequirement.id custReq)
  && id_eqb (Some (Relationship.technicalReqId r)) (TechnicalRequirement.id techReq).

Definition calculateTechnicalPriorities (data : QFDData.t)
  : list TechnicalPriority.t :=
  map (fun techReq =>
         let score :=
           fold_left
             (fun sum custReq =>
                let relationship :=
                  find (relationshipMatches custReq techReq)
                       (QFDData.relationships data) in
                let relationshipValue :=
                  match relationship with
                  | Some r => strengthValue (Relationship.strength r)
                  | None => strengthValue NONE_REL
                  end in
                sum + CustomerRequirement.importance custReq * relationshipValue)
             (QFDData.customerRequirements data) 0 in
         {| TechnicalPriority.id := TechnicalRequirement.id techReq;
            TechnicalPriority.description := TechnicalRequirement.description techReq;
            TechnicalPriority.score := score;
            TechnicalPriority.relativeWeight := 0 |})
      (QFDData.technicalRequirements data).

(** ** Classifier *)

Definition getImplementationChallenge (difficulty priority : Q) : Band :=
  let challengeScore := difficulty * 20 + priority * (3 # 10) in
  if Qgtb challengeScore 80 then Critical
  else if Qgtb challengeScore 60 then High
  else if Qgtb challengeScore 40 then Medium
  else Low.

Definition getStrategicImportance (priority difficulty : Q) : Band :=
  if Qgtb priority 70 then
    (if Qgeb difficulty 4 then Critical else High)
  else if Qgtb priority 40 then
    (if Qgeb difficulty 4 then High else Medium)
  else if Qgtb priority 20 then Medium
  else Low.

(** ** Correlation Analyzer *)

(** The four local counters of [getCorrelationImpact]. *)
Record Counters : Type := mkCounters {
  positiveCount : Z;
  negativeCount : Z;
  strongPositiveCount : Z;
  strongNegativeCount : Z
}.

(** The body of the [forEach] callback: the [switch] on [corr.correlation]. *)
Definition countCorrelation (k : Counters) (corr : TechnicalCorrelation.t)
  : Counters :=
  match TechnicalCorrelation.correlation corr with
  | STRONG_POSITIVE =>
      mkCounters (positiveCount k) (negativeCount k)
                 (strongPositiveCount k + 1) (strongNegativeCount k)
  | POSITIVE =>
      mkCounters (positiveCount k + 1) (negativeCount k)
                 (strongPositiveCount k) (strongNegativeCount k)
  | NEGATIVE =>
      mkCounters (positiveCount k) (negativeCount k + 1)
                 (strongPositiveCount k) (strongNegativeCount k)
  | STRONG_NEGATIVE =>
      mkCounters (positiveCount k) (negativeCount k)
                 (strongPositiveCount k) (strongNegativeCount k + 1)
  | NONE => k
  end%Z.

Definition getCorrelationImpact (correlations : list TechnicalCorrelation.t)
    (techReqs : list TechnicalRequirement.t)
    (priorities : list TechnicalPriority.t) : CorrelationImpactSummary.t :=
  let k := fold_left countCorrelation correlations (mkCounters 0 0 0 0) in
  let totalCorrelations := Z.of_nat (List.length correlations) in
  let netPositive :=
    ((strongPositiveCount k * 2 + positiveCount k)
     - (strongNegativeCount k * 2 + negativeCount k))%Z in
  let impact :=
    if (totalCorrelations =? 0)%Z then Isolated
    else if (netPositive >? 1)%Z then Synergistic
    else if (netPositive <? -1)%Z then Conflicted
    else Complex in
  {| CorrelationImpactSummary.totalCorrelations := totalCorrelations;
     CorrelationImpactSummary.positiveCount :=
       (positiveCount k + strongPositiveCount k)%Z;
     CorrelationImpactSummary.negativeCount :=
       (negativeCount k + strongNegativeCount k)%Z;
     CorrelationImpactSummary.netImpact := netPositive;
     CorrelationImpactSummary.impact := impact |}.

Definition msgCritical : string :=
  "CRITICAL: High-priority, difficult target with conflicts. Consider phased approach or alternative solutions.".
Definition msgOpportunity : string :=
  "OPPORTUNITY: High-priority target with synergies. Bundle with correlated requirements for efficiency.".
Definition msgFocus : string :=
  "FOCUS: High-priority but challenging target. Allocate experienced resources and consider risk mitigation.".
Definition msgPriority : string :=
  "PRIORITY: Important target with manageable complexity. Good candidate for early implementation.".
Definition msgSynergy : string :=
  "SYNERGY: Consider implementing alongside correlated high-priority requirements.".
Definition msgCaution : string :=
  "CAUTION: Monitor trade-offs with other requirements during implementation.".
Definition msgStandard : string :=
  "STANDARD: Can be implemented independently with normal resource allocation.".

Definition getTargetRecommendation (priority difficulty : Q)
    (correlationImpact : CorrelationImpactSummary.t) : string :=
  let isHighPriority := Qgtb priority 50 in
  let isHighDifficulty := Qgeb difficulty 4 in
  let hasPositiveCorrelations :=
    (CorrelationImpactSummary.positiveCount correlationImpact >? 0)%Z in
  let hasNegativeCorrelations :=
    (CorrelationImpactSummary.negativeCount correlationImpact >? 0)%Z in
  if isHighPriority && isHighDifficulty && hasNegativeCorrelations then
    msgCritical
  else if isHighPriority && hasPositiveCorrelations then msgOpportunity
  else if isHighPriority && isHighDifficulty then msgFocus
  else if isHighPriority then msgPriority
  else if hasPositiveCorrelations then msgSynergy
  else if hasNegativeCorrelations then msgCaution
  else msgStandard.

(** The callback of [data.technicalCorrelations.filter] in
    [calculateTargetImpact]. *)
Definition references (techReq : TechnicalRequirement.t)
    (corr : TechnicalCorrelation.t) : bool :=
  id_eqb (Some (TechnicalCorrelation.techReq1Id corr)) (TechnicalRequirement.id techReq)
  || id_eqb (Some (TechnicalCorrelation.techReq2Id corr)) (TechnicalRequirement.id techReq).

Definition calculateTargetImpact (data : QFDData.t)
  : list TargetImpactAnalysis.t :=
  let priorities := calculateTechnicalPriorities data in
  let maxScore := Math_max (map TechnicalPriority.score priorities) 1 in
  map (fun techReq =>
         let priority :=
           find (fun p => id_eqb (TechnicalPriority.id p)
                                 (TechnicalRequirement.id techReq))
                priorities in
         let priorityScore :=
           match priority with
           | Some p => orZero (TechnicalPriority.score p)
           | None => 0
           end in
         let normalizedPriority := (priorityScore / maxScore) * 100 in
         let implementationChallenge :=
           getImplementationChallenge
             (TechnicalRequirement.difficulty techReq) normalizedPriority in
         let strategicImportance :=
           getStrategicImportance
             normalizedPriority (TechnicalRequirement.difficulty techReq) in
         let correlations :=
           filter (references techReq) (QFDData.technicalCorrelations data) in
         let correlationImpact :=
           getCorrelationImpact correlations
             (QFDData.technicalRequirements data) priorities in
         {| TargetImpactAnalysis.id := TechnicalRequirement.id techReq;
            TargetImpactAnalysis.description :=
              TechnicalRequirement.description techReq;
            TargetImpactAnalysis.target := TechnicalRequirement.target techReq;
            TargetImpactAnalysis.unit := TechnicalRequirement.unit techReq;
            TargetImpactAnalysis.difficulty :=
              TechnicalRequirement.difficulty techReq;
            TargetImpactAnalysis.priorityScore := priorityScore;
            TargetImpactAnalysis.normalizedPriority := normalizedPriority;
            TargetImpactAnalysis.implementationChallenge :=
              implementationChallenge;
            TargetImpactAnalysis.strategicImportance := strategicImportance;
            TargetImpactAnalysis.correlationImpact := correlationImpact;
            TargetImpactAnalysis.recommendation :=
              getTargetRecommendation normalizedPriority
                (TechnicalRequirement.difficulty techReq) correlationImpact |})
      (QFDData.technicalRequirements data).

(** *** Per-pair insights *)

Definition getCorrelationImpactDescription (correlation : CorrelationType)
    (score1 score2 : Q) : string :=
  match correlation with
  | STRONG_POSITIVE =>
      "Strong synergy: Working on one requirement significantly helps the other. Combined impact is amplified."
  | POSITIVE =>
      "Positive synergy: Improvements in one requirement help the other. Look for combined solutions."
  | NEGATIVE =>
      "Trade-off exists: Improving one may compromise the other. Balance is needed."
  | STRONG_NEGATIVE =>
      "Strong trade-off: Significant conflict between requirements. Careful optimization required."
  | NONE => "No significant interaction between these requirements."
  end%string.

Definition getCorrelationRecommendation (correlation : CorrelationType)
    (score1 score2 : Q) : string :=
  let totalScore := score1 + score2 in
  match correlation with
  | STRONG_POSITIVE =>
      if Qgtb totalScore 50 then
        "HIGH PRIORITY: Focus on solutions that address both requirements simultaneously for maximum impact."
      else "Consider bundling these requirements in your development approach."
  | POSITIVE =>
      if Qgtb totalScore 40 then
        "Look for integrated solutions that can improve both requirements together."
      else "Moderate synergy - consider combined approaches when possible."
  | NEGATIVE =>
      if Qgtb totalScore 60 then
        "CRITICAL: High-priority requirements in conflict. Develop compromise solutions or phased approach."
      else "Monitor trade-offs carefully during implementation."
  | STRONG_NEGATIVE =>
      if Qgtb totalScore 50 then
        "URGENT: Strong conflict between important requirements. Consider alternative approaches or accept trade-offs."
      else "Strong conflict exists - may need to prioritize one over the other."
  | NONE => "Requirements can be addressed independently."
  end%string.

(** The body of the [forEach] callback of [calculateCorrelationImpact]:
    the insight is pushed only when both requirements and both priorities
    are found. *)
Definition pushInsight (data : QFDData.t)
    (basePriorities : list TechnicalPriority.t)
    (correlationInsights : list CorrelationInsight.t)
    (corr : TechnicalCorrelation.t) : list CorrelationInsight.t :=
  let byReqId (i : string) :=
    find (fun r => id_eqb (TechnicalRequirement.id r) (Some i))
         (QFDData.technicalRequirements data) in
  let byPriorityId (i : string) :=
    find (fun p => id_eqb (TechnicalPriority.id p) (Some i)) basePriorities in
  match byReqId (TechnicalCorrelation.techReq1Id corr),
        byReqId (TechnicalCorrelation.techReq2Id corr),
        byPriorityId (TechnicalCorrelation.techReq1Id corr),
        byPriorityId (TechnicalCorrelation.techReq2Id corr) with
  | Some req1, Some req2, Some priority1, Some priority2 =>
      correlationInsights ++
      [ {| CorrelationInsight.req1 := TechnicalRequirement.description req1;
           CorrelationInsight.req2 := TechnicalRequirement.description req2;
           CorrelationInsight.correlation :=
             TechnicalCorrelation.correlation corr;
           CorrelationInsight.priority1Score := TechnicalPriority.score priority1;
           CorrelationInsight.priority2Score := TechnicalPriority.score priority2;
           CorrelationInsight.impact :=
             getCorrelationImpactDescription
               (TechnicalCorrelation.correlation corr)
               (TechnicalPriority.score priority1)
               (TechnicalPriority.score priority2);
           CorrelationInsight.recommendation :=
             getCorrelationRecommendation
               (TechnicalCorrelation.correlation corr)
               (TechnicalPriority.score priority1)
               (TechnicalPriority.score priority2) |} ]
  | _, _, _, _ => correlationInsights
  end.

Record CorrelationImpactResult : Type := mkResult {
  priorities : list TechnicalPriority.t;
  correlationInsights : list CorrelationInsight.t
}.

Definition calculateCorrelationImpact (data : QFDData.t)
  : CorrelationImpactResult :=
  let basePriorities := calculateTechnicalPriorities data in
  let correlationInsights :=
    fold_left (pushInsight data basePriorities)
              (QFDData.technicalCorrelations data) [] in
  {| priorities := basePriorities;
     correlationInsights := correlationInsights |}.

(** ** Weight Normalizer *)

Definition normalizeWeights (priorities : list TechnicalPriority.t)
  : list TechnicalPriority.t :=
  let totalScore :=
    fold_left (fun sum p => sum + TechnicalPriority.score p) priorities 0 in
  if Qeq_bool totalScore 0 then priorities
  else
    map (fun p =>
           {| TechnicalPriority.id := TechnicalPriority.id p;
              TechnicalPriority.description := TechnicalPriority.description p;
              TechnicalPriority.score := TechnicalPriority.score p;
              TechnicalPriority.relativeWeight :=
                (TechnicalPriority.score p / totalScore) * 100 |})
        priorities.

(** ** Local correlation store ([updateCorrelation] of [useQFDData]) *)

(** [[a, b].sort()] with the default comparator. *)
Definition sortPair (a b : string) : string * string :=
  if String.ltb b a then (b, a) else (a, b).

(** The callback of [findIndex] in [updateCorrelation]. *)
Definition samePair (techReq1Id techReq2Id : string)
    (corr : TechnicalCorrelation.t) : bool :=
  (String.eqb (TechnicalCorrelation.techReq1Id corr) techReq1Id
   && String.eqb (TechnicalCorrelation.techReq2Id corr) techReq2Id)
  || (String.eqb (TechnicalCorrelation.techReq1Id corr) techReq2Id
      && String.eqb (TechnicalCorrelation.techReq2Id corr) techReq1Id).

(** The state update passed to [setData]: from the previous snapshot to the
    next one. *)
Definition updateCorrelation (techReq1Id techReq2Id : string)
    (correlation : CorrelationType) (prev : QFDData.t) : QFDData.t :=
  let existingCorrIndex :=
    findIndex (samePair techReq1Id techReq2Id)
              (QFDData.technicalCorrelations prev) in
  let newCorrelations := QFDData.technicalCorrelations prev in
  let newCorrelations :=
    if CorrelationType_eqb correlation NONE then
      match existingCorrIndex with
      | Some i => splice1 i newCorrelations
      | None => newCorrelations
      end
    else
      let '(req1, req2) := sortPair techReq1Id techReq2Id in
      let newCorr :=
        {| TechnicalCorrelation.techReq1Id := req1;
           TechnicalCorrelation.techReq2Id := req2;
           TechnicalCorrelation.correlation := correlation |} in
      match existingCorrIndex with
      | Some i => setAt i newCorr newCorrelations
      | None => newCorrelations ++ [newCorr]
      end in
  {| QFDData.customerRequirements := QFDData.customerRequirements prev;
     QFDData.technicalRequirements := QFDData.technicalRequirements prev;
     QFDData.relationships := QFDData.relationships prev;
     QFDData.technicalCorrelations := newCorrelations;
     QFDData.competitorNames := QFDData.competitorNames prev |}.

(** The initial snapshot of [useQFDData]. *)
Definition initialData : QFDData.t :=
  {| QFDData.customerRequirements := [];
     QFDData.technicalRequirements := [];
     QFDData.relationships := [];
     QFDData.technicalCorrelations := [];
     QFDData.competitorNames := ["Competitor A"; "Competitor B"]%string |}.

(** The snapshot installed by [loadSampleData]. *)
Definition sampleData : QFDData.t :=
  {| QFDData.customerRequirements :=
       [ CustomerRequirement.mk (Some "cust1") "Easy to use interface" 5 [3; 4];
         CustomerRequirement.mk (Some "cust2") "Fast response time" 4 [4; 3];
         CustomerRequirement.mk (Some "cust3") "Reliable operation" 5 [3; 5] ]%string;
     QFDData.technicalRequirements :=
       [ TechnicalRequirement.mk (Some "tech1") "Response time" "ms" "<200" 3 0;
         TechnicalRequirement.mk (Some "tech2") "UI complexity score" "points" "<50" 2 0;
         TechnicalRequirement.mk (Some "tech3") "System uptime" "%" ">99.9" 4 0 ]%string;
     QFDData.relationships :=
       [ Relationship.mk "cust1" "tech2" STRONG;
         Relationship.mk "cust2" "tech1" STRONG;
         Relationship.mk "cust3" "tech3" STRONG;
         Relationship.mk "cust1" "tech1" MEDIUM ]%string;
     QFDData.technicalCorrelations :=
       [ TechnicalCorrelation.mk "tech1" "tech2" NEGATIVE;
         TechnicalCorrelation.mk "tech1" "tech3" POSITIVE;
         TechnicalCorrelation.mk "tech2" "tech3" STRONG_POSITIVE ]%string;
     QFDData.competitorNames := ["Product A"; "Product B"]%string |}.

(** Scenario A of the specification: one customer requirement of importance
    5 strongly related to one technical requirement of difficulty 3. *)
Definition scenarioA : QFDData.t :=
  {| QFDData.customerRequirements :=
       [ CustomerRequirement.mk (Some "c1") "need" 5 [] ]%string;
     QFDData.technicalRequirements :=
       [ TechnicalRequirement.mk (Some "t1") "measure" "ms" "<1" 3 0 ]%string;
     QFDData.relationships := [ Relationship.mk "c1" "t1" STRONG ]%string;
     QFDData.technicalCorrelations := [];
     QFDData.competitorNames := [] |}.

(** Scenario B of the specification: two priorities with scores 60 and 40. *)
Definition scenarioB : list TechnicalPriority.t :=
  [ TechnicalPriority.mk (Some "t1") "first" 60 0;
    TechnicalPriority.mk (Some "t2") "second" 40 0 ]%string.

(** Scenario E of the specification: no relationship at all. *)
Definition scenarioE : list TechnicalPriority.t :=
  [ TechnicalPriority.mk (Some "t1") "first" 0 0;
    TechnicalPriority.mk (Some "t2") "second" 0 0 ]%string.

(** ** Specification-side definitions

    The definitions of this section follow the words of the specification;
    the theorems below compare them with the functions embedded from the
    source. *)

(** Σ over a sequence of numbers. *)
Definition Qsum (xs : list Q) : Q := fold_right Qplus 0 xs.

(** Spec §4.1: [strength(c,t)] is the strength of the relationship record of
    the pair, and 0 if no relationship record exists for the pair. *)
Fixpoint spec_strength (rels : list Relationship.t)
    (c : CustomerRequirement.t) (t : TechnicalRequirement.t) : Q :=
  match rels with
  | [] => 0
  | r :: rest =>
      if relationshipMatches c t r
      then strengthValue (Relationship.strength r)
      else spec_strength rest c t
  end.

(** Spec §3: a relationship record belongs to the pair (c, t) when its
    customerReqId is the id of [c] and its technicalReqId is the id of [t]. *)
Definition recordOfPair (c : CustomerRequirement.t)
    (t : TechnicalRequirement.t) (r : Relationship.t) : Prop :=
  Some (Relationship.customerReqId r) = CustomerRequirement.id c
  /\ Some (Relationship.technicalReqId r) = TechnicalRequirement.id t.

(** Spec §4.1: Score(t) = Σ over all customer requirements c of
    importance(c) × strength(c,t). *)
Definition spec_score (data : QFDData.t) (t : TechnicalRequirement.t) : Q :=
  Qsum (map (fun c => CustomerRequirement.importance c
                      * spec_strength (QFDData.relationships data) c t)
            (QFDData.customerRequirements data)).

(** Spec §4.2: the total score of a sequence of priorities. *)
Definition spec_totalScore (ps : list TechnicalPriority.t) : Q :=
  Qsum (map TechnicalPriority.score ps).

(** Spec §4.4: the number of correlation records of a given type. *)
Definition countOf (c : CorrelationType)
    (cs : list TechnicalCorrelation.t) : Z :=
  Z.of_nat
    (List.length
       (filter (fun corr =>
                  CorrelationType_eqb (TechnicalCorrelation.correlation corr) c)
               cs)).

(** The ordering Low < Medium < High < Critical of the bands. *)
Definition bandRank (b : Band) : nat :=
  match b with
  | Low => 0
  | Medium => 1
  | High => 2
  | Critical => 3
  end.

Definition band_le (a b : Band) : Prop := (bandRank a <= bandRank b)%nat.

(** Spec §4.4: the threshold on [score1 + score2] for each correlation
    value. *)
Definition spec_threshold (c : CorrelationType) : Q :=
  match c with
  | STRONG_POSITIVE => 50
  | POSITIVE => 40
  | NEGATIVE => 60
  | STRONG_NEGATIVE => 50
  | NONE => 0
  end.

(** The number of stored records for the unordered pair {a, b}. *)
Definition pairCount (a b : string) (cs : list TechnicalCorrelation.t) : nat :=
  List.length (filter (samePair a b) cs).

(** Spec §3: a correlation is stored with the lexicographically smaller id
    first. *)
Definition spec_canonical (a b : string) (c : CorrelationType)
  : TechnicalCorrelation.t :=
  if String.ltb a b
  then {| TechnicalCorrelation.techReq1Id := a;
          TechnicalCorrelation.techReq2Id := b;
          TechnicalCorrelation.correlation := c |}
  else {| TechnicalCorrelation.techReq1Id := b;
          TechnicalCorrelation.techReq2Id := a;
          TechnicalCorrelation.correlation := c |}.

(** Spec §3: each unordered pair has at most one stored record. *)
Definition onePerPair (cs : list TechnicalCorrelation.t) : Prop :=
  forall x y, (pairCount x y cs <= 1)%nat.

(** What every insight pushed by [calculateCorrelationImpact] satisfies: its
    scores are the raw scores of two entries of the priority list, and its
    recommendation is computed from its correlation and those scores. *)
Definition insight_from (prios : list TechnicalPriority.t)
    (ins : CorrelationInsight.t) : Prop :=
  CorrelationInsight.recommendation ins
  = getCorrelationRecommendation (CorrelationInsight.correlation ins)
      (CorrelationInsight.priority1Score ins)
      (CorrelationInsight.priority2Score ins)
  /\ exists p1 p2,
       In p1 prios /\ In p2 prios
       /\ CorrelationInsight.priority1Score ins = TechnicalPriority.score p1
       /\ CorrelationInsight.priority2Score ins = TechnicalPriority.score p2.

(** ** Further functions of the source *)

(** *** Presentation mappers ([qfdCalculations.ts]) *)

Definition getRelationshipSymbol (strength : RelationshipStrength) : string :=
  match strength with
  | STRONG => "●●"
  | MEDIUM => "●"
  | WEAK => "▲"
  | NONE_REL => ""
  end%string.

Definition getRelationshipColor (strength : RelationshipStrength) : string :=
  match strength with
  | STRONG => "bg-green-500 text-white"
  | MEDIUM => "bg-yellow-500 text-white"
  | WEAK => "bg-red-500 text-white"
  | NONE_REL => "bg-gray-100 text-gray-400 hover:bg-gray-200"
  end%string.

Definition getCorrelationSymbol (correlation : CorrelationType) : string :=
  match correlation with
  | STRONG_POSITIVE => "++"
  | POSITIVE => "+"
  | NEGATIVE => "-"
  | STRONG_NEGATIVE => "--"
  | NONE => ""
  end%string.

Definition getCorrelationColor (correlation : CorrelationType) : string :=
  match correlation with
  | STRONG_POSITIVE => "bg-green-600 text-white"
  | POSITIVE => "bg-green-400 text-white"
  | NEGATIVE => "bg-red-400 text-white"
  | STRONG_NEGATIVE => "bg-red-600 text-white"
  | NONE => "bg-gray-100 text-gray-400 hover:bg-gray-200"
  end%string.

Definition getCorrelationTitle (correlation : CorrelationType) : string :=
  match correlation with
  | STRONG_POSITIVE => "Strong Positive Correlation"
  | POSITIVE => "Positive Correlation"
  | NEGATIVE => "Negative Correlation"
  | STRONG_NEGATIVE => "Strong Negative Correlation"
  | NONE => "No Correlation"
  end%string.

(** *** Insight urgency ([getInsightPriority] of [PriorityAnalysis.tsx]) *)

Inductive InsightPriority : Type :=
| insightLow | insightMedium | insightHigh | insightCritical.

Definition getInsightPriority (insight : CorrelationInsight.t)
  : InsightPriority :=
  let totalScore :=
    CorrelationInsight.priority1Score insight
    + CorrelationInsight.priority2Score insight in
  let absCorrelation :=
    Z.abs (correlationValue (CorrelationInsight.correlation insight)) in
  if Qgtb totalScore 50 && (absCorrelation >=? 2)%Z then insightCritical
  else if Qgtb totalScore 30 && (absCorrelation >=? 1)%Z then insightHigh
  else if Qgtb totalScore 15 || (absCorrelation >=? 1)%Z then insightMedium
  else insightLow.

(** *** Matrix lookups and click handlers ([QFDMatrix.tsx]) *)

Definition RelationshipStrength_eqb (a b : RelationshipStrength) : bool :=
  match a, b with
  | NONE_REL, NONE_REL | WEAK, WEAK | MEDIUM, MEDIUM | STRONG, STRONG => true
  | _, _ => false
  end.

(** The callback shared by [getRelationshipStrength] and the [findIndex] of
    [updateRelationship]. *)
Definition relPair (customerReqId technicalReqId : string)
    (r : Relationship.t) : bool :=
  String.eqb (Relationship.customerReqId r) customerReqId
  && String.eqb (Relationship.technicalReqId r) technicalReqId.

Definition getRelationshipStrength (data : QFDData.t)
    (customerReqId technicalReqId : string) : RelationshipStrength :=
  match find (relPair customerReqId technicalReqId)
             (QFDData.relationships data) with
  | Some relationship => Relationship.strength relationship
  | None => NONE_REL
  end.

Definition getCorrelation (data : QFDData.t) (techReq1Id techReq2Id : string)
  : CorrelationType :=
  match find (samePair techReq1Id techReq2Id)
             (QFDData.technicalCorrelations data) with
  | Some correlation => TechnicalCorrelation.correlation correlation
  | None => NONE
  end.

(** [xs.indexOf(x)], with [-1] when [x] is absent. *)
Fixpoint indexOf {A : Type} (eqb : A -> A -> bool) (x : A) (xs : list A) : Z :=
  match xs with
  | [] => -1
  | y :: rest =>
      if eqb y x then 0
      else let i := indexOf eqb x rest in
           if (i <? 0)%Z then -1 else i + 1
  end%Z.

(** [values[(currentIndex + 1) % values.length]]; the index is always inside
    the array, [dflt] stands for the [undefined] of an index outside it. *)
Definition nextInCycle {A : Type} (eqb : A -> A -> bool) (dflt : A)
    (values : list A) (current : A) : A :=
  let currentIndex := indexOf eqb current values in
  nth (Z.to_nat (Z.rem (currentIndex + 1) (Z.of_nat (List.length values))))
      values dflt.

Definition strengthValues : list RelationshipStrength :=
  [NONE_REL; WEAK; MEDIUM; STRONG].

Definition correlationValues : list CorrelationType :=
  [NONE; POSITIVE; STRONG_POSITIVE; NEGATIVE; STRONG_NEGATIVE].

(** The handlers receive the store update as a callback
    ([onUpdateRelationship], [onUpdateCorrelation]). *)
Definition cycleRelationship {R : Type} (data : QFDData.t)
    (onUpdateRelationship : string -> string -> RelationshipStrength -> R)
    (customerReqId technicalReqId : string) : R :=
  let currentStrength :=
    getRelationshipStrength data customerReqId technicalReqId in
  let nextStrength :=
    nextInCycle RelationshipStrength_eqb NONE_REL strengthValues
                currentStrength in
  onUpdateRelationship customerReqId technicalReqId nextStrength.

Definition cycleCorrelation {R : Type} (data : QFDData.t)
    (onUpdateCorrelation : string -> string -> CorrelationType -> R)
    (techReq1Id techReq2Id : string) : R :=
  let currentCorrelation := getCorrelation data techReq1Id techReq2Id in
  let nextCorrelation :=
    nextInCycle CorrelationType_eqb NONE correlationValues
                currentCorrelation in
  onUpdateCorrelation techReq1Id techReq2Id nextCorrelation.

(** *** The other updates of the local store ([useQFDData.ts]) *)

(** [addCustomerRequirement]: [newId] is the value of [generateId()], [data]
    the snapshot captured by the callback, [prev] the state being updated. *)
Definition addCustomerRequirement (newId : string) (data prev : QFDData.t)
  : QFDData.t :=
  let newReq :=
    {| CustomerRequirement.id := Some newId;
       CustomerRequirement.description := "";
       CustomerRequirement.importance := 3;
       CustomerRequirement.competitorRatings :=
         map (fun _ => 3) (QFDData.competitorNames data) |} in
  {| QFDData.customerRequirements :=
       QFDData.customerRequirements prev ++ [newReq];
     QFDData.technicalRequirements := QFDData.technicalRequirements prev;
     QFDData.relationships := QFDData.relationships prev;
     QFDData.technicalCorrelations := QFDData.technicalCorrelations prev;
     QFDData.competitorNames := QFDData.competitorNames prev |}.

Definition removeCustomerRequirement (id : string) (prev : QFDData.t)
  : QFDData.t :=
  {| QFDData.customerRequirements :=
       filter (fun req => negb (id_eqb (CustomerRequirement.id req) (Some id)))
              (QFDData.customerRequirements prev);
     QFDData.technicalRequirements := QFDData.technicalRequirements prev;
     QFDData.relationships :=
       filter (fun rel => negb (String.eqb (Relationship.customerReqId rel) id))
              (QFDData.relationships prev);
     QFDData.technicalCorrelations := QFDData.technicalCorrelations prev;
     QFDData.competitorNames := QFDData.competitorNames prev |}.


Definition removeTechnicalRequirement (id : string) (prev : QFDData.t)
  : QFDData.t :=
  {| QFDData.customerRequirements := QFDData.customerRequirements prev;
     QFDData.technicalRequirements :=
       filter (fun req => negb (id_eqb (TechnicalRequirement.id req) (Some id)))
              (QFDData.technicalRequirements prev);
     QFDData.relationships :=
       filter (fun rel => negb (String.eqb (Relationship.technicalReqId rel) id))
              (QFDData.relationships prev);
     QFDData.technicalCorrelations :=
       filter (fun corr =>
                 negb (String.eqb (TechnicalCorrelation.techReq1Id corr) id)
                 && negb (String.eqb (TechnicalCorrelation.techReq2Id corr) id))
              (QFDData.technicalCorrelations prev);
     QFDData.competitorNames := QFDData.competitorNames prev |}.

Definition updateRelationship (customerReqId technicalReqId : string)
    (strength : RelationshipStrength) (prev : QFDData.t) : QFDData.t :=
  let existingRelIndex :=
    findIndex (relPair customerReqId technicalReqId)
              (QFDData.relationships prev) in
  let newRelationships := QFDData.relationships prev in
  let newRelationships :=
    if RelationshipStrength_eqb strength NONE_REL then
      match existingRelIndex with
      | Some i => splice1 i newRelationships
      | None => newRelationships
      end
    else
      let newRel :=
        {| Relationship.customerReqId := customerReqId;
           Relationship.technicalReqId := technicalReqId;
           Relationship.strength := strength |} in
      match existingRelIndex with
      | Some i => setAt i newRel newRelationships
      | None => newRelationships ++ [newRel]
      end in
  {| QFDData.customerRequirements := QFDData.customerRequirements prev;
     QFDData.technicalRequirements := QFDData.technicalRequirements prev;
     QFDData.relationships := newRelationships;
     QFDData.technicalCorrelations := QFDData.technicalCorrelations prev;
     QFDData.competitorNames := QFDData.competitorNames prev |}.

(** [xs.map((x, index) => f x index)]. *)
Fixpoint mapi_from {A B : Type} (f : A -> nat -> B) (index : nat)
    (xs : list A) : list B :=
  match xs with
  | [] => []
  | x :: rest => f x index :: mapi_from f (S index) rest
  end.

(** [req.competitorRatings[index] || 3]: a missing rating and the rating 0
    both give 3. *)
Definition ratingOr3 (ratings : list Q) (index : nat) : Q :=
  match nth_error ratings index with
  | Some r => if Qeq_bool r 0 then 3 else r
  | None => 3
  end.

Definition updateCompetitorNames (names : list string) (prev : QFDData.t)
  : QFDData.t :=
  let updatedCustomerReqs :=
    map (fun req =>
           let newRatings :=
             mapi_from
               (fun _ index =>
                  ratingOr3 (CustomerRequirement.competitorRatings req) index)
               0 names in
           {| CustomerRequirement.id := CustomerRequirement.id req;
              CustomerRequirement.description :=
                CustomerRequirement.description req;
              CustomerRequirement.importance :=
                CustomerRequirement.importance req;
              CustomerRequirement.competitorRatings := newRatings |})
        (QFDData.customerRequirements prev) in
  {| QFDData.customerRequirements := updatedCustomerReqs;
     QFDData.technicalRequirements := QFDData.technicalRequirements prev;
     QFDData.relationships := QFDData.relationships prev;
     QFDData.technicalCorrelations := QFDData.technicalCorrelations prev;
     QFDData.competitorNames := names |}.

(** A click on a cell of the matrix, with the handler wired to the local
    store ([ProjectView.tsx], when the project is not held remotely) and the
    rendered snapshot being the state that is updated. *)
Definition clickRelationship (customerReqId technicalReqId : string)
    (data : QFDData.t) : QFDData.t :=
  cycleRelationship data
    (fun c t strength => updateRelationship c t strength data)
    customerReqId technicalReqId.

Definition clickCorrelation (techReq1Id techReq2Id : string)
    (data : QFDData.t) : QFDData.t :=
  cycleCorrelation data
    (fun a b correlation => updateCorrelation a b correlation data)
    techReq1Id techReq2Id.

(** *** Invariants of a snapshot *)

(** The number of stored relationship records of a pair. *)
Definition relCount (c t : string) (rels : list Relationship.t) : nat :=
  List.length (filter (relPair c t) rels).

(** Each (customer, technical) pair has at most one relationship record. *)
Definition onePerRelationship (rels : list Relationship.t) : Prop :=
  forall c t, (relCount c t rels <= 1)%nat.

(** Every customer requirement has one rating per competitor. *)
Definition ratingsAligned (data : QFDData.t) : Prop :=
  Forall (fun req =>
            List.length (CustomerRequirement.competitorRatings req)
            = List.length (QFDData.competitorNames data))
         (QFDData.customerRequirements data).

(** Every stored relationship and correlation names technical requirements
    of the snapshot. *)
Definition hasTechReq (data : QFDData.t) (i : string) : Prop :=
  In (Some i) (map TechnicalRequirement.id (QFDData.technicalRequirements data)).

Definition correlationsResolved (data : QFDData.t) : Prop :=
  Forall (fun corr =>
            hasTechReq data (TechnicalCorrelation.techReq1Id corr)
            /\ hasTechReq data (TechnicalCorrelation.techReq2Id corr))
         (QFDData.technicalCorrelations data).

Definition insightRank (p : InsightPriority) : nat :=
  match p with
  | insightLow => 0
  | insightMedium => 1
  | insightHigh => 2
  | insightCritical => 3
  end.

(** A draft snapshot: the second technical requirement has no identifier
    yet, and one correlation names a requirement that does not exist. *)
Definition draftData : QFDData.t :=
  {| QFDData.customerRequirements :=
       [ CustomerRequirement.mk (Some "cust1") "Easy to use interface" 5 [3; 4] ]%string;
     QFDData.technicalRequirements :=
       [ TechnicalRequirement.mk (Some "tech1") "Response time" "ms" "<200" 3 0;
         TechnicalRequirement.mk None "Unsaved requirement" "" "" 2 0 ]%string;
     QFDData.relationships :=
       [ Relationship.mk "cust1" "tech1" STRONG ]%string;
     QFDData.technicalCorrelations :=
       [ TechnicalCorrelation.mk "tech1" "ghost" POSITIVE ]%string;
     QFDData.competitorNames := ["Product A"; "Product B"]%string |}.

(** ** Basic facts about the primitives *)

Lemma Qgtb_true (x y : Q) : Qgtb x y = true <-> y < x.
Proof.
  unfold Qgtb. rewrite negb_true_iff.
  split; intro H.
  - apply Qnot_le_lt. intro Hle. apply Qle_bool_iff in Hle. congruence.
  - destruct (Qle_bool x y) eqn:E; [|reflexivity].
    apply Qle_bool_iff in E. lra.
Qed.

Lemma Qgtb_false (x y : Q) : Qgtb x y = false <-> x <= y.
Proof.
  unfold Qgtb. rewrite negb_false_iff. apply Qle_bool_iff.
Qed.

Lemma Qgeb_true (x y : Q) : Qgeb x y = true <-> y <= x.
Proof. unfold Qgeb. apply Qle_bool_iff. Qed.

Lemma Qgeb_false (x y : Q) : Qgeb x y = false <-> x < y.
Proof.
  unfold Qgeb. split; intro H.
  - apply Qnot_le_lt. intro Hle. apply Qle_bool_iff in Hle. congruence.
  - destruct (Qle_bool y x) eqn:E; [|reflexivity].
    apply Qle_bool_iff in E. lra.
Qed.

Lemma id_eqb_eq (a b : option string) : id_eqb a b = true <-> a = b.
Proof.
  destruct a as [x|], b as [y|]; simpl; try (split; congruence).
  rewrite String.eqb_eq. split; congruence.
Qed.

Lemma id_eqb_refl (a : option string) : id_eqb a a = true.
Proof. apply id_eqb_eq. reflexivity. Qed.

Lemma orZero_eq (x : Q) : orZero x == x.
Proof.
  unfold orZero. destruct (Qeq_bool x 0) eqn:E; [|reflexivity].
  apply Qeq_bool_iff in E. symmetry. exact E.
Qed.

(** A [reduce] that adds [f x] for each element computes a sum. *)
Lemma fold_left_sum {A : Type} (f : A -> Q) (l : list A) (a : Q) :
  fold_left (fun sum x => sum + f x) l a == a + Qsum (map f l).
Proof.
  revert a. induction l as [|x l IH]; intro a; simpl.
  - ring.
  - rewrite IH. ring.
Qed.

(** ** Priority Scorer: the score is the weighted sum *)

Lemma find_strength (rels : list Relationship.t)
    (c : CustomerRequirement.t) (t : TechnicalRequirement.t) :
  match find (relationshipMatches c t) rels with
  | Some r => strengthValue (Relationship.strength r)
  | None => strengthValue NONE_REL
  end = spec_strength rels c t.
Proof.
  induction rels as [|r rest IH]; simpl; [reflexivity|].
  destruct (relationshipMatches c t r); [reflexivity | exact IH].
Qed.

Lemma score_of_techReq (data : QFDData.t) (t : TechnicalRequirement.t) :
  fold_left
    (fun sum custReq =>
       sum + CustomerRequirement.importance custReq
             * match find (relationshipMatches custReq t)
                          (QFDData.relationships data) with
               | Some r => strengthValue (Relationship.strength r)
               | None => strengthValue NONE_REL
               end)
    (QFDData.customerRequirements data) 0
  == spec_score data t.
Proof.
  rewrite (fold_left_sum
             (fun custReq =>
                CustomerRequirement.importance custReq
                * match find (relationshipMatches custReq t)
                             (QFDData.relationships data) with
                  | Some r => strengthValue (Relationship.strength r)
                  | None => strengthValue NONE_REL
                  end)).
  unfold spec_score.
  rewrite Qplus_0_l.
  induction (QFDData.customerRequirements data) as [|c cs IH]; simpl.
  - reflexivity.
  - rewrite IH, find_strength. reflexivity.
Qed.

Lemma calculateTechnicalPriorities_nth (data : QFDData.t) (i : nat)
    (t : TechnicalRequirement.t) :
  nth_error (QFDData.technicalRequirements data) i = Some t ->
  exists p,
    nth_error (calculateTechnicalPriorities data) i = Some p
    /\ TechnicalPriority.id p = TechnicalRequirement.id t
    /\ TechnicalPriority.description p = TechnicalRequirement.description t
    /\ TechnicalPriority.score p == spec_score data t
    /\ TechnicalPriority.relativeWeight p = 0.
Proof.
  intro H. unfold calculateTechnicalPriorities.
  rewrite nth_error_map, H. simpl.
  eexists. split; [reflexivity|]. simpl.
  repeat split. apply score_of_techReq.
Qed.

Lemma spec_strength_absent (rels : list Relationship.t)
    (c : CustomerRequirement.t) (t : TechnicalRequirement.t) :
  (forall r, In r rels -> relationshipMatches c t r = false) ->
  spec_strength rels c t = 0.
Proof.
  induction rels as [|r rest IH]; simpl; intro H; [reflexivity|].
  rewrite (H r (or_introl eq_refl)). apply IH.
  intros r' Hr'. apply H. right. exact Hr'.
Qed.

Lemma spec_strength_present (rels : list Relationship.t)
    (c : CustomerRequirement.t) (t : TechnicalRequirement.t)
    (before after : list Relationship.t) (r : Relationship.t) :
  rels = before ++ r :: after ->
  (forall r', In r' before -> relationshipMatches c t r' = false) ->
  relationshipMatches c t r = true ->
  spec_strength rels c t = strengthValue (Relationship.strength r).
Proof.
  intros -> Hb Hr.
  induction before as [|b before IH]; simpl.
  - rewrite Hr. reflexivity.
  - rewrite (Hb b (or_introl eq_refl)). apply IH.
    intros r' Hr'. apply Hb. right. exact Hr'.
Qed.

Lemma relationshipMatches_iff (c : CustomerRequirement.t)
    (t : TechnicalRequirement.t) (r : Relationship.t) :
  relationshipMatches c t r = true <-> recordOfPair c t r.
Proof.
  unfold relationshipMatches, recordOfPair.
  rewrite andb_true_iff, !id_eqb_eq. reflexivity.
Qed.

Lemma relationshipMatches_false (c : CustomerRequirement.t)
    (t : TechnicalRequirement.t) (r : Relationship.t) :
  ~ recordOfPair c t r -> relationshipMatches c t r = false.
Proof.
  intro H. destruct (relationshipMatches c t r) eqn:E; [|reflexivity].
  apply relationshipMatches_iff in E. contradiction.
Qed.

(** C1. For every input snapshot, [calculateTechnicalPriorities] returns
    exactly one [TechnicalPriority] per technical requirement, in the order
    of [technicalRequirements]; the entry of requirement [t] carries its id
    and description, its score is the sum over all customer requirements [c]
    of importance(c) times the strength of the relationship record of the
    pair (c, t), and its relativeWeight is 0.  A record is a record of the
    pair (c, t) exactly when its customerReqId is the id of [c] and its
    technicalReqId is the id of [t]; the strength of a pair is 0 when no
    such record exists, and is the strength of the record of the pair
    otherwise (of the first one, should the store hold several). *)
Theorem calculateTechnicalPriorities_spec (data : QFDData.t) :
  List.length (calculateTechnicalPriorities data)
  = List.length (QFDData.technicalRequirements data)
  /\ (forall i t,
        nth_error (QFDData.technicalRequirements data) i = Some t ->
        exists p,
          nth_error (calculateTechnicalPriorities data) i = Some p
          /\ TechnicalPriority.id p = TechnicalRequirement.id t
          /\ TechnicalPriority.description p
             = TechnicalRequirement.description t
          /\ TechnicalPriority.score p
             == Qsum (map (fun c =>
                             CustomerRequirement.importance c
                             * spec_strength (QFDData.relationships data) c t)
                          (QFDData.customerRequirements data))
          /\ TechnicalPriority.relativeWeight p = 0)
  /\ (forall c t r,
        relationshipMatches c t r = true
        <-> Some (Relationship.customerReqId r) = CustomerRequirement.id c
            /\ Some (Relationship.technicalReqId r)
               = TechnicalRequirement.id t)
  /\ (forall c t,
        (forall r, In r (QFDData.relationships data) ->
                   ~ (Some (Relationship.customerReqId r)
                      = CustomerRequirement.id c
                      /\ Some (Relationship.technicalReqId r)
                         = TechnicalRequirement.id t)) ->
        spec_strength (QFDData.relationships data) c t = 0)
  /\ (forall c t before r after,
        QFDData.relationships data = before ++ r :: after ->
        (forall r', In r' before ->
                    ~ (Some (Relationship.customerReqId r')
                       = CustomerRequirement.id c
                       /\ Some (Relationship.technicalReqId r')
                          = TechnicalRequirement.id t)) ->
        Some (Relationship.customerReqId r) = CustomerRequirement.id c ->
        Some (Relationship.technicalReqId r) = TechnicalRequirement.id t ->
        spec_strength (QFDData.relationships data) c t
        = strengthValue (Relationship.strength r))
  /\ (forall c t,
        (forall r, In r (QFDData.relationships data) ->
                   relationshipMatches c t r = false) ->
        spec_strength (QFDData.relationships data) c t = 0)
  /\ (forall c t before r after,
        QFDData.relationships data = before ++ r :: after ->
        (forall r', In r' before -> relationshipMatches c t r' = false) ->
        relationshipMatches c t r = true ->
        spec_strength (QFDData.relationships data) c t
        = strengthValue (Relationship.strength r)).
Proof.
  split; [|split; [|split; [|split; [|split; [|split]]]]].
  - unfold calculateTechnicalPriorities. apply length_map.
  - intros i t H. apply calculateTechnicalPriorities_nth. exact H.
  - intros c t r. apply relationshipMatches_iff.
  - intros c t H. apply spec_strength_absent.
    intros r Hr. apply relationshipMatches_false. apply H. exact Hr.
  - intros c t before r after Hrels Hbefore Hc Ht.
    apply (spec_strength_present _ c t before after r Hrels).
    + intros r' Hr'. apply relationshipMatches_false. apply Hbefore. exact Hr'.
    + apply relationshipMatches_iff. split; assumption.
  - intros c t. apply spec_strength_absent.
  - intros c t before r after. apply spec_strength_present.
Qed.

(** ** Weight Normalizer *)

Lemma totalScore_eq (ps : list TechnicalPriority.t) :
  fold_left (fun sum p => sum + TechnicalPriority.score p) ps 0
  == spec_totalScore ps.
Proof.
  rewrite (fold_left_sum TechnicalPriority.score). unfold spec_totalScore. ring.
Qed.

Lemma Qsum_scaled {A : Type} (f : A -> Q) (d : Q) (l : list A) :
  ~ d == 0 ->
  Qsum (map (fun x => f x / d * 100) l) == Qsum (map f l) / d * 100.
Proof.
  intro Hd. induction l as [|x l IH]; simpl.
  - field. exact Hd.
  - rewrite IH. field. exact Hd.
Qed.

Lemma normalizeWeights_zero (ps : list TechnicalPriority.t) :
  spec_totalScore ps == 0 -> normalizeWeights ps = ps.
Proof.
  intro H. unfold normalizeWeights.
  destruct (Qeq_bool _ 0) eqn:E; [reflexivity|].
  apply Qeq_bool_neq in E. exfalso. apply E.
  rewrite totalScore_eq. exact H.
Qed.

Lemma normalizeWeights_nonzero (ps : list TechnicalPriority.t) :
  ~ spec_totalScore ps == 0 ->
  normalizeWeights ps
  = map (fun p =>
           {| TechnicalPriority.id := TechnicalPriority.id p;
              TechnicalPriority.description := TechnicalPriority.description p;
              TechnicalPriority.score := TechnicalPriority.score p;
              TechnicalPriority.relativeWeight :=
                (TechnicalPriority.score p
                 / fold_left (fun sum p => sum + TechnicalPriority.score p) ps 0)
                * 100 |})
        ps.
Proof.
  intro H. unfold normalizeWeights.
  destruct (Qeq_bool _ 0) eqn:E; [|reflexivity].
  apply Qeq_bool_iff in E. exfalso. apply H.
  rewrite <- totalScore_eq. exact E.
Qed.

(** C2. If the sum of all scores is positive, [normalizeWeights] returns a
    sequence of the same length and order in which each entry keeps its id,
    description and score and has relativeWeight = score / totalScore × 100,
    so that (in exact arithmetic) the relativeWeights sum to 100.  If the sum
    of all scores is 0, the input is returned unchanged: nothing is divided,
    and relativeWeights that were 0 are still 0. *)
Theorem normalizeWeights_spec (ps : list TechnicalPriority.t) :
  (0 < spec_totalScore ps ->
   List.length (normalizeWeights ps) = List.length ps
   /\ (forall i p,
         nth_error ps i = Some p ->
         exists p',
           nth_error (normalizeWeights ps) i = Some p'
           /\ TechnicalPriority.relativeWeight p'
              == TechnicalPriority.score p / spec_totalScore ps * 100
           /\ TechnicalPriority.id p' = TechnicalPriority.id p
           /\ TechnicalPriority.description p' = TechnicalPriority.description p
           /\ TechnicalPriority.score p' = TechnicalPriority.score p)
   /\ Qsum (map TechnicalPriority.relativeWeight (normalizeWeights ps)) == 100)
  /\ (spec_totalScore ps == 0 ->
      normalizeWeights ps = ps
      /\ (Forall (fun p => TechnicalPriority.relativeWeight p == 0) ps ->
          Forall (fun p => TechnicalPriority.relativeWeight p == 0)
                 (normalizeWeights ps))).
Proof.
  split.
  - intro Hpos.
    assert (Hne : ~ spec_totalScore ps == 0) by lra.
    assert (Hne' : ~ fold_left (fun sum p => sum + TechnicalPriority.score p) ps 0 == 0)
      by (rewrite totalScore_eq; exact Hne).
    rewrite (normalizeWeights_nonzero ps Hne).
    split; [apply length_map|]. split.
    + intros i p Hp. rewrite nth_error_map, Hp. simpl.
      eexists. split; [reflexivity|]. simpl.
      split; [|repeat split].
      rewrite totalScore_eq. reflexivity.
    + rewrite map_map. simpl.
      rewrite (Qsum_scaled TechnicalPriority.score _ ps Hne').
      rewrite totalScore_eq. unfold spec_totalScore in *.
      field. exact Hne.
  - intro Hz. rewrite (normalizeWeights_zero ps Hz).
    split; [reflexivity | intro H; exact H].
Qed.

Lemma normalizeWeights_spec_witness :
  (0 < spec_totalScore scenarioB
   /\ Qsum (map TechnicalPriority.relativeWeight (normalizeWeights scenarioB))
      == 100)
  /\ (spec_totalScore scenarioE == 0
      /\ normalizeWeights scenarioE = scenarioE).
Proof.
  assert (HB : 0 < spec_totalScore scenarioB) by reflexivity.
  assert (HE : spec_totalScore scenarioE == 0) by reflexivity.
  split.
  - split; [exact HB|].
    apply (proj1 (normalizeWeights_spec scenarioB) HB).
  - split; [exact HE|].
    apply (proj2 (normalizeWeights_spec scenarioE) HE).
Defined.

(** Scenario B: scores 60 and 40 receive the weights 60 and 40. *)
Example normalizeWeights_scenarioB :
  map (fun p => Qred (TechnicalPriority.relativeWeight p))
      (normalizeWeights scenarioB) = [60; 40].
Proof. reflexivity. Qed.

(** In the pipeline the normaliser receives the output of the scorer, whose
    weights are all 0: when the total score is 0 they are all 0 afterwards. *)
Corollary normalizeWeights_after_scoring (data : QFDData.t) :
  spec_totalScore (calculateTechnicalPriorities data) == 0 ->
  Forall (fun p => TechnicalPriority.relativeWeight p = 0)
         (normalizeWeights (calculateTechnicalPriorities data)).
Proof.
  intro H. rewrite (normalizeWeights_zero _ H).
  unfold calculateTechnicalPriorities.
  apply Forall_map. apply Forall_forall. intros t _. reflexivity.
Qed.

(** ** Correlation Analyzer: per-requirement summary *)

Lemma countOf_nil (c : CorrelationType) : countOf c [] = 0%Z.
Proof. reflexivity. Qed.

Lemma countOf_cons (c : CorrelationType) (corr : TechnicalCorrelation.t)
    (cs : list TechnicalCorrelation.t) :
  countOf c (corr :: cs)
  = ((if CorrelationType_eqb (TechnicalCorrelation.correlation corr) c
      then 1 else 0) + countOf c cs)%Z.
Proof.
  unfold countOf. simpl.
  destruct (CorrelationType_eqb _ c); simpl List.length; lia.
Qed.

(** The loop invariant of the [forEach] of [getCorrelationImpact]: each
    counter has grown by the number of records of its type. *)
Lemma counters_fold (cs : list TechnicalCorrelation.t) (k : Counters) :
  let k' := fold_left countCorrelation cs k in
  (positiveCount k' = positiveCount k + countOf POSITIVE cs
   /\ negativeCount k' = negativeCount k + countOf NEGATIVE cs
   /\ strongPositiveCount k' = strongPositiveCount k + countOf STRONG_POSITIVE cs
   /\ strongNegativeCount k' = strongNegativeCount k + countOf STRONG_NEGATIVE cs)%Z.
Proof.
  revert k. induction cs as [|corr cs IH]; intro k; simpl.
  - rewrite !countOf_nil. lia.
  - specialize (IH (countCorrelation k corr)). simpl in IH.
    destruct IH as (Hp & Hn & Hsp & Hsn).
    rewrite Hp, Hn, Hsp, Hsn, !countOf_cons.
    unfold countCorrelation.
    destruct (TechnicalCorrelation.correlation corr);
      cbn [CorrelationType_eqb positiveCount negativeCount
           strongPositiveCount strongNegativeCount]; lia.
Qed.

(** The records handed to [getCorrelationImpact] for a requirement are those
    naming it in either position of the pair. *)
Lemma references_iff (t : TechnicalRequirement.t)
    (corr : TechnicalCorrelation.t) :
  references t corr = true
  <-> Some (TechnicalCorrelation.techReq1Id corr) = TechnicalRequirement.id t
      \/ Some (TechnicalCorrelation.techReq2Id corr) = TechnicalRequirement.id t.
Proof.
  unfold references. rewrite orb_true_iff, !id_eqb_eq. reflexivity.
Qed.

Lemma calculateTargetImpact_correlationImpact (data : QFDData.t) (i : nat)
    (t : TechnicalRequirement.t) :
  nth_error (QFDData.technicalRequirements data) i = Some t ->
  exists a,
    nth_error (calculateTargetImpact data) i = Some a
    /\ TargetImpactAnalysis.correlationImpact a
       = getCorrelationImpact
           (filter (references t) (QFDData.technicalCorrelations data))
           (QFDData.technicalRequirements data)
           (calculateTechnicalPriorities data).
Proof.
  intro H. unfold calculateTargetImpact. cbv zeta.
  rewrite nth_error_map, H. cbn [option_map].
  eexists. split; reflexivity.
Qed.

(** C3. For every list of correlation records, the summary has netImpact = (2×strongPositive + positive) − (2×strongNegative +
    negative), where each count is the number of records of that type; its
    positiveCount and negativeCount add the strong and plain records of each
    sign.  The label is Isolated exactly when there is no record, and then all
    counts are 0; it is Synergistic exactly when the net impact is greater
    than 1, Conflicted exactly when it is less than −1, and Complex in
    every other case with at least one record.  In [calculateTargetImpact]
    the summary of a technical requirement is computed from the records that
    reference it in either position of the pair. *)
Theorem getCorrelationImpact_spec (cs : list TechnicalCorrelation.t)
    (techReqs : list TechnicalRequirement.t)
    (priorities : list TechnicalPriority.t) :
  let s := getCorrelationImpact cs techReqs priorities in
  let net :=
    ((2 * countOf STRONG_POSITIVE cs + countOf POSITIVE cs)
     - (2 * countOf STRONG_NEGATIVE cs + countOf NEGATIVE cs))%Z in
  CorrelationImpactSummary.netImpact s = net
  /\ CorrelationImpactSummary.totalCorrelations s = Z.of_nat (List.length cs)
  /\ CorrelationImpactSummary.positiveCount s
     = (countOf POSITIVE cs + countOf STRONG_POSITIVE cs)%Z
  /\ CorrelationImpactSummary.negativeCount s
     = (countOf NEGATIVE cs + countOf STRONG_NEGATIVE cs)%Z
  /\ (forall data i t,
        nth_error (QFDData.technicalRequirements data) i = Some t ->
        exists a,
          nth_error (calculateTargetImpact data) i = Some a
          /\ TargetImpactAnalysis.correlationImpact a
             = getCorrelationImpact
                 (filter (references t) (QFDData.technicalCorrelations data))
                 (QFDData.technicalRequirements data)
                 (calculateTechnicalPriorities data))
  /\ (forall t corr,
        references t corr = true
        <-> Some (TechnicalCorrelation.techReq1Id corr)
            = TechnicalRequirement.id t
            \/ Some (TechnicalCorrelation.techReq2Id corr)
               = TechnicalRequirement.id t)
  /\ (CorrelationImpactSummary.impact s = Isolated <-> cs = [])
  /\ getCorrelationImpact [] techReqs priorities
     = CorrelationImpactSummary.mk 0 0 0 0 Isolated
  /\ (CorrelationImpactSummary.impact s = Synergistic <-> (net > 1)%Z)
  /\ (CorrelationImpactSummary.impact s = Conflicted <-> (net < -1)%Z)
  /\ (CorrelationImpactSummary.impact s = Complex
      <-> cs <> [] /\ (-1 <= net <= 1)%Z).
Proof.
  intros s net.
  assert (Htarget := calculateTargetImpact_correlationImpact).
  assert (Hrefs := references_iff).
  pose proof (counters_fold cs (mkCounters 0 0 0 0)) as H.
  cbv zeta in H.
  cbn [positiveCount negativeCount strongPositiveCount strongNegativeCount]
    in H.
  destruct H as (Hp & Hn & Hsp & Hsn).
  assert (Hnet : CorrelationImpactSummary.netImpact s = net).
  { subst s net. unfold getCorrelationImpact.
    cbn [CorrelationImpactSummary.netImpact].
    rewrite Hp, Hn, Hsp, Hsn. lia. }
  assert (Himp : CorrelationImpactSummary.impact s
                 = if (Z.of_nat (List.length cs) =? 0)%Z then Isolated
                   else if (net >? 1)%Z then Synergistic
                   else if (net <? -1)%Z then Conflicted
                   else Complex).
  { rewrite <- Hnet. reflexivity. }
  assert (Hempty : cs = [] -> net = 0%Z).
  { intros ->. reflexivity. }
  split; [exact Hnet|].
  split; [reflexivity|].
  split; [subst s; unfold getCorrelationImpact;
          cbn [CorrelationImpactSummary.positiveCount];
          rewrite Hp, Hsp; lia|].
  split; [subst s; unfold getCorrelationImpact;
          cbn [CorrelationImpactSummary.negativeCount];
          rewrite Hn, Hsn; lia|].
  split; [exact Htarget|].
  split; [exact Hrefs|].
  assert (Hlen : (Z.of_nat (List.length cs) =? 0)%Z = true <-> cs = []).
  { rewrite Z.eqb_eq. destruct cs; simpl; split; intro E;
      try reflexivity; try lia; discriminate. }
  rewrite Himp.
  destruct (Z.of_nat (List.length cs) =? 0)%Z eqn:E0.
  - assert (Hcs : cs = []) by (apply Hlen; reflexivity).
    specialize (Hempty Hcs).
    repeat split; try reflexivity; try discriminate; try (intros; lia);
      try (intros; exact Hcs).
    intros [Hne _]. contradiction.
  - assert (Hcs : cs <> []).
    { intro Hc. apply Hlen in Hc. congruence. }
    destruct (net >? 1)%Z eqn:E1; [|destruct (net <? -1)%Z eqn:E2];
      try (apply Z.gtb_lt in E1);
      try (apply Z.ltb_lt in E2);
      try (rewrite Z.gtb_ltb in E1; apply Z.ltb_ge in E1);
      try (apply Z.ltb_ge in E2);
      repeat split; try reflexivity; try discriminate;
      try (intros; lia); try (intros; exact Hcs);
      try (intro Hc; contradiction);
      try (intros [_ Hc]; lia).
Qed.

(** ** Classifier and recommendation tables *)

(** Turns the boolean tests of the source into order facts. *)
Ltac tests_to_props :=
  repeat match goal with
    | H : Qgtb _ _ = true |- _ => apply Qgtb_true in H
    | H : Qgtb _ _ = false |- _ => apply Qgtb_false in H
    | H : Qgeb _ _ = true |- _ => apply Qgeb_true in H
    | H : Qgeb _ _ = false |- _ => apply Qgeb_false in H
    | H : (_ >? _)%Z = true |- _ => apply Z.gtb_lt in H
    | H : (_ >? _)%Z = false |- _ =>
        rewrite Z.gtb_ltb in H; apply Z.ltb_ge in H
    end.

(** Case analysis on every comparison the goal still tests. *)
Ltac split_tests :=
  repeat match goal with
    | |- context [Qgtb ?a ?b] => destruct (Qgtb a b) eqn:?
    | |- context [Qgeb ?a ?b] => destruct (Qgeb a b) eqn:?
    | |- context [(?a >? ?b)%Z] => destruct (a >? b)%Z eqn:?
    end;
  tests_to_props.

(** The seven recommendation messages are pairwise distinct, so the message
    identifies the rule that fired. *)
Lemma messages_distinct :
  NoDup [msgCritical; msgOpportunity; msgFocus; msgPriority;
         msgSynergy; msgCaution; msgStandard].
Proof.
  repeat constructor; simpl; intuition discriminate.
Qed.

(** C4. The recommendation of one requirement is chosen by a decision list
    read from the top, each rule applying only when every earlier rule
    failed: (high priority and high difficulty and has-negative) gives the
    critical message; (high priority and has-positive) the opportunity
    message; (high priority and high difficulty) the focus message; (high
    priority) the priority message; (has-positive) the synergy message;
    (has-negative) the caution message; anything else the standard message.
    High priority is normalizedPriority > 50, high difficulty is
    difficulty ≥ 4. *)
Theorem getTargetRecommendation_spec (priority difficulty : Q)
    (ci : CorrelationImpactSummary.t) :
  let highPriority := 50 < priority in
  let highDifficulty := 4 <= difficulty in
  let hasPositive := (0 < CorrelationImpactSummary.positiveCount ci)%Z in
  let hasNegative := (0 < CorrelationImpactSummary.negativeCount ci)%Z in
  let r := getTargetRecommendation priority difficulty ci in
  let rule1 := highPriority /\ highDifficulty /\ hasNegative in
  let rule2 := highPriority /\ hasPositive in
  let rule3 := highPriority /\ highDifficulty in
  let rule4 := highPriority in
  let rule5 := hasPositive in
  let rule6 := hasNegative in
  (rule1 -> r = msgCritical)
  /\ (~ rule1 -> rule2 -> r = msgOpportunity)
  /\ (~ rule1 -> ~ rule2 -> rule3 -> r = msgFocus)
  /\ (~ rule1 -> ~ rule2 -> ~ rule3 -> rule4 -> r = msgPriority)
  /\ (~ rule1 -> ~ rule2 -> ~ rule3 -> ~ rule4 -> rule5 -> r = msgSynergy)
  /\ (~ rule1 -> ~ rule2 -> ~ rule3 -> ~ rule4 -> ~ rule5 -> rule6 ->
      r = msgCaution)
  /\ (~ rule1 -> ~ rule2 -> ~ rule3 -> ~ rule4 -> ~ rule5 -> ~ rule6 ->
      r = msgStandard).
Proof.
  cbv zeta. unfold getTargetRecommendation.
  split_tests; cbn [andb];
    repeat split; intros; try reflexivity; exfalso;
    try lra; try lia; tauto.
Qed.

(** C5. The Implementation Challenge band is decided by
    challengeScore = difficulty×20 + normalizedPriority×0.3: Critical when
    it exceeds 80, High when it exceeds 60 (and not 80), Medium when it
    exceeds 40 (and not 60), Low otherwise.  For difficulty 3 and
    normalizedPriority 100 the challengeScore is 90 and the band is
    Critical. *)
Theorem getImplementationChallenge_spec (difficulty normalizedPriority : Q) :
  let challengeScore := difficulty * 20 + normalizedPriority * (3 # 10) in
  let band := getImplementationChallenge difficulty normalizedPriority in
  (band = Critical <-> 80 < challengeScore)
  /\ (band = High <-> 60 < challengeScore <= 80)
  /\ (band = Medium <-> 40 < challengeScore <= 60)
  /\ (band = Low <-> challengeScore <= 40)
  /\ 3 * 20 + 100 * (3 # 10) == 90
  /\ getImplementationChallenge 3 100 = Critical.
Proof.
  cbv zeta. unfold getImplementationChallenge.
  split_tests;
    repeat split; intros; try reflexivity; try discriminate; try lra;
    try (exfalso; lra);
    repeat match goal with H : _ /\ _ |- _ => destruct H end;
    try (exfalso; lra).
Qed.

(** C6. The Strategic Importance band follows the table: normalizedPriority
    above 70 gives Critical when difficulty ≥ 4 and High otherwise; above 40
    and at most 70 gives High when difficulty ≥ 4 and Medium otherwise; above
    20 and at most 40 gives Medium; at most 20 gives Low. *)
Theorem getStrategicImportance_spec (normalizedPriority difficulty : Q) :
  let band := getStrategicImportance normalizedPriority difficulty in
  (70 < normalizedPriority -> 4 <= difficulty -> band = Critical)
  /\ (70 < normalizedPriority -> difficulty < 4 -> band = High)
  /\ (40 < normalizedPriority <= 70 -> 4 <= difficulty -> band = High)
  /\ (40 < normalizedPriority <= 70 -> difficulty < 4 -> band = Medium)
  /\ (20 < normalizedPriority <= 40 -> band = Medium)
  /\ (normalizedPriority <= 20 -> band = Low).
Proof.
  cbv zeta. unfold getStrategicImportance.
  split_tests;
    repeat split; intros;
    repeat match goal with H : _ /\ _ |- _ => destruct H end;
    try reflexivity; exfalso; lra.
Qed.

(** C8. With difficulty held fixed, raising normalizedPriority never lowers
    the Implementation Challenge band nor the Strategic Importance band, in
    the order Low < Medium < High < Critical. *)
Theorem classifier_monotone (difficulty p1 p2 : Q) :
  p1 <= p2 ->
  band_le (getImplementationChallenge difficulty p1)
          (getImplementationChallenge difficulty p2)
  /\ band_le (getStrategicImportance p1 difficulty)
             (getStrategicImportance p2 difficulty).
Proof.
  intro Hle. unfold band_le. split.
  - unfold getImplementationChallenge.
    split_tests; simpl; try lia; exfalso; lra.
  - unfold getStrategicImportance.
    split_tests; simpl; try lia; exfalso; lra.
Qed.

Lemma classifier_monotone_witness :
  10 <= 100
  /\ band_le (getImplementationChallenge 3 10) (getImplementationChallenge 3 100)
  /\ band_le (getStrategicImportance 10 3) (getStrategicImportance 100 3).
Proof.
  split; [lra|]. apply (classifier_monotone 3 10 100). lra.
Defined.

(** ** Correlation Analyzer: per-pair insights *)

Lemma pushInsight_insight_from (data : QFDData.t)
    (prios : list TechnicalPriority.t) (acc : list CorrelationInsight.t)
    (corr : TechnicalCorrelation.t) :
  Forall (insight_from prios) acc ->
  Forall (insight_from prios) (pushInsight data prios acc corr).
Proof.
  intro Hacc. unfold pushInsight.
  repeat match goal with
    | |- context [match find ?f ?l with Some _ => _ | None => _ end] =>
        let E := fresh "E" in destruct (find f l) eqn:E
    end; try exact Hacc.
  apply Forall_app. split; [exact Hacc|].
  constructor; [|constructor].
  split; [reflexivity|].
  repeat match goal with
    | H : find _ _ = Some _ |- _ => apply find_some in H; destruct H as [H _]
    end.
  eexists; eexists. repeat split; eassumption.
Qed.

Lemma fold_pushInsight_insight_from (data : QFDData.t)
    (prios : list TechnicalPriority.t) (cs : list TechnicalCorrelation.t)
    (acc : list CorrelationInsight.t) :
  Forall (insight_from prios) acc ->
  Forall (insight_from prios) (fold_left (pushInsight data prios) cs acc).
Proof.
  revert acc. induction cs as [|corr cs IH]; intros acc Hacc; simpl.
  - exact Hacc.
  - apply IH. apply pushInsight_insight_from. exact Hacc.
Qed.

(** ** Target impact: normalised priority *)

Lemma Math_max_ge_last (args : list Q) (last : Q) :
  last <= Math_max args last.
Proof.
  induction args as [|x args IH]; simpl.
  - apply Qle_refl.
  - eapply Qle_trans; [exact IH | apply Q.le_max_r].
Qed.

Lemma Math_max_ge_arg (args : list Q) (last s : Q) :
  In s args -> s <= Math_max args last.
Proof.
  induction args as [|x args IH]; simpl; [contradiction|].
  intros [-> | Hin].
  - apply Q.le_max_l.
  - eapply Qle_trans; [apply IH; exact Hin | apply Q.le_max_r].
Qed.

Lemma Math_max_attained (args : list Q) (last : Q) :
  Math_max args last == last
  \/ exists s, In s args /\ Math_max args last == s.
Proof.
  induction args as [|x args IH]; simpl.
  - left. reflexivity.
  - destruct (Q.max_spec x (Math_max args last)) as [[_ E] | [_ E]].
    + destruct IH as [IH | (s & Hs & IH)].
      * left. rewrite E. exact IH.
      * right. exists s. split; [right; exact Hs | rewrite E; exact IH].
    + right. exists x. split; [left; reflexivity | exact E].
Qed.

(** The score of a requirement depends on the requirement only through its
    identifier. *)
Lemma spec_strength_same_id (rels : list Relationship.t)
    (c : CustomerRequirement.t) (t t' : TechnicalRequirement.t) :
  TechnicalRequirement.id t' = TechnicalRequirement.id t ->
  spec_strength rels c t' = spec_strength rels c t.
Proof.
  intro Hid. induction rels as [|r rest IH]; simpl; [reflexivity|].
  unfold relationshipMatches. rewrite Hid, IH. reflexivity.
Qed.

Lemma spec_score_same_id (data : QFDData.t) (t t' : TechnicalRequirement.t) :
  TechnicalRequirement.id t' = TechnicalRequirement.id t ->
  spec_score data t' = spec_score data t.
Proof.
  intro Hid. unfold spec_score. f_equal.
  apply map_ext. intro c.
  rewrite (spec_strength_same_id _ c t t' Hid). reflexivity.
Qed.

(** [priorities.find(p => p.id === techReq.id)] always finds an entry, and
    that entry carries the raw score of [techReq]. *)
Lemma find_priority (data : QFDData.t) (t : TechnicalRequirement.t) :
  In t (QFDData.technicalRequirements data) ->
  exists p,
    find (fun p => id_eqb (TechnicalPriority.id p) (TechnicalRequirement.id t))
         (calculateTechnicalPriorities data) = Some p
    /\ TechnicalPriority.score p == spec_score data t.
Proof.
  unfold calculateTechnicalPriorities.
  induction (QFDData.technicalRequirements data) as [|t0 l IH];
    simpl; [contradiction|].
  intro Hin.
  destruct (id_eqb (TechnicalRequirement.id t0) (TechnicalRequirement.id t))
    eqn:E.
  - eexists. split; [reflexivity|]. simpl.
    apply id_eqb_eq in E.
    rewrite (spec_score_same_id data t0 t); [|congruence].
    apply score_of_techReq.
  - destruct Hin as [-> | Hin].
    + rewrite id_eqb_refl in E. discriminate.
    + apply IH. exact Hin.
Qed.

Lemma calculateTargetImpact_nth (data : QFDData.t) (i : nat)
    (t : TechnicalRequirement.t) :
  nth_error (QFDData.technicalRequirements data) i = Some t ->
  exists a,
    nth_error (calculateTargetImpact data) i = Some a
    /\ TargetImpactAnalysis.id a = TechnicalRequirement.id t
    /\ TargetImpactAnalysis.priorityScore a == spec_score data t
    /\ TargetImpactAnalysis.normalizedPriority a
       == spec_score data t
          / Math_max (map TechnicalPriority.score
                          (calculateTechnicalPriorities data)) 1
          * 100.
Proof.
  intro H.
  destruct (find_priority data t (nth_error_In _ _ H)) as (p & Hfind & Hscore).
  unfold calculateTargetImpact. cbv zeta.
  rewrite nth_error_map, H. cbn [option_map].
  eexists. split; [reflexivity|].
  cbn [TargetImpactAnalysis.id TargetImpactAnalysis.priorityScore
       TargetImpactAnalysis.normalizedPriority].
  rewrite Hfind.
  split; [reflexivity|].
  split.
  - rewrite orZero_eq. exact Hscore.
  - rewrite orZero_eq, Hscore. reflexivity.
Qed.

(** C10. [calculateTargetImpact] returns one analysis per technical
    requirement, in order, whose normalizedPriority is the requirement's raw
    score divided by maxScore times 100, where maxScore is the largest of the
    raw scores and 1.  maxScore is therefore at least 1 and the division is
    always defined; when every raw score is 0 (in particular when there is no
    technical requirement at all) every normalizedPriority is 0. *)
Theorem calculateTargetImpact_normalizedPriority (data : QFDData.t) :
  let scores :=
    map TechnicalPriority.score (calculateTechnicalPriorities data) in
  let maxScore := Math_max scores 1 in
  1 <= maxScore
  /\ (forall s, In s scores -> s <= maxScore)
  /\ (maxScore == 1 \/ exists s, In s scores /\ maxScore == s)
  /\ List.length (calculateTargetImpact data)
     = List.length (QFDData.technicalRequirements data)
  /\ (forall i t,
        nth_error (QFDData.technicalRequirements data) i = Some t ->
        exists a,
          nth_error (calculateTargetImpact data) i = Some a
          /\ TargetImpactAnalysis.normalizedPriority a
             == spec_score data t / maxScore * 100)
  /\ ((forall t, In t (QFDData.technicalRequirements data) ->
                 spec_score data t == 0) ->
      forall a, In a (calculateTargetImpact data) ->
                TargetImpactAnalysis.normalizedPriority a == 0).
Proof.
  cbv zeta.
  split; [apply Math_max_ge_last|].
  split; [intros s; apply Math_max_ge_arg|].
  split; [apply Math_max_attained|].
  split; [unfold calculateTargetImpact; apply length_map|].
  split.
  - intros i t H.
    destruct (calculateTargetImpact_nth data i t H) as (a & Ha & _ & _ & Hn).
    exists a. split; [exact Ha | exact Hn].
  - intros Hzero a Hin.
    destruct (In_nth_error _ _ Hin) as (i & Hi).
    assert (Hlen : (i < List.length (calculateTargetImpact data))%nat)
      by (apply nth_error_Some; congruence).
    unfold calculateTargetImpact in Hlen. cbv zeta in Hlen.
    rewrite length_map in Hlen.
    destruct (nth_error (QFDData.technicalRequirements data) i) as [t|] eqn:Ht.
    + destruct (calculateTargetImpact_nth data i t Ht) as (a' & Ha' & _ & _ & Hn).
      assert (a' = a) by congruence. subst a'.
      rewrite Hn, (Hzero t (nth_error_In _ _ Ht)).
      unfold Qdiv. ring.
    + apply nth_error_None in Ht. lia.
Qed.

(** ** Correlation store: canonical ordering *)


Lemma findIndex_None {A : Type} (f : A -> bool) (xs : list A) :
  findIndex f xs = None -> forall x, In x xs -> f x = false.
Proof.
  induction xs as [|x0 rest IH]; simpl; [contradiction|].
  destruct (f x0) eqn:E; [discriminate|].
  destruct (findIndex f rest); [discriminate|].
  intros _ x [<- | Hin]; [exact E | apply IH; [reflexivity | exact Hin]].
Qed.


Lemma samePair_sym (a b : string) (corr : TechnicalCorrelation.t) :
  samePair a b corr = samePair b a corr.
Proof. unfold samePair. apply orb_comm. Qed.

Lemma ltb_antisym_false (a b : string) :
  String.ltb a b = true -> String.ltb b a = false.
Proof.
  unfold String.ltb. rewrite (String.compare_antisym b a).
  destruct (String.compare a b); simpl; congruence.
Qed.

Lemma ltb_total (a b : string) :
  a <> b -> String.ltb a b = false -> String.ltb b a = true.
Proof.
  unfold String.ltb. rewrite (String.compare_antisym b a).
  destruct (String.compare a b) eqn:E; simpl; try congruence.
  apply String.compare_eq_iff in E. congruence.
Qed.

Lemma ltb_irrefl (a : string) : String.ltb a a = false.
Proof.
  destruct (String.ltb a a) eqn:E; [|reflexivity].
  pose proof (ltb_antisym_false a a E). congruence.
Qed.


(** The record built by [updateCorrelation] is the canonical one. *)
Lemma sortPair_canonical (a b : string) (c : CorrelationType) :
  (let '(req1, req2) := sortPair a b in
   {| TechnicalCorrelation.techReq1Id := req1;
      TechnicalCorrelation.techReq2Id := req2;
      TechnicalCorrelation.correlation := c |})
  = spec_canonical a b c.
Proof.
  unfold sortPair, spec_canonical.
  destruct (String.eqb_spec a b) as [-> | Hne].
  - rewrite ltb_irrefl. reflexivity.
  - destruct (String.ltb b a) eqn:E.
    + rewrite (ltb_antisym_false b a E). reflexivity.
    + rewrite (ltb_total b a (not_eq_sym Hne) E). reflexivity.
Qed.



Lemma samePair_canonical (a b : string) (c : CorrelationType) :
  samePair a b (spec_canonical a b c) = true.
Proof.
  unfold spec_canonical, samePair.
  destruct (String.ltb a b); simpl; rewrite !String.eqb_refl;
    simpl; auto using orb_true_r.
Qed.

(** Two records of the unordered pair {a, b} are records of the same
    unordered pairs. *)
Lemma samePair_transfer (a b : string) (r r' : TechnicalCorrelation.t) :
  samePair a b r = true -> samePair a b r' = true ->
  forall x y, samePair x y r = samePair x y r'.
Proof.
  unfold samePair. intros Hr Hr' x y.
  destruct r as [r1 r2 rc], r' as [r1' r2' rc']. simpl in *.
  apply orb_true_iff in Hr, Hr'.
  rewrite !andb_true_iff, !String.eqb_eq in Hr, Hr'.
  destruct Hr as [[-> ->] | [-> ->]], Hr' as [[-> ->] | [-> ->]];
    try reflexivity;
    destruct (String.eqb a x), (String.eqb b y),
             (String.eqb a y), (String.eqb b x); reflexivity.
Qed.

Lemma pairCount_app (x y : string) (l1 l2 : list TechnicalCorrelation.t) :
  pairCount x y (l1 ++ l2) = (pairCount x y l1 + pairCount x y l2)%nat.
Proof. unfold pairCount. rewrite filter_app, length_app. reflexivity. Qed.

Lemma pairCount_cons (x y : string) (r : TechnicalCorrelation.t)
    (l : list TechnicalCorrelation.t) :
  pairCount x y (r :: l)
  = ((if samePair x y r then 1 else 0) + pairCount x y l)%nat.
Proof. unfold pairCount. simpl. destruct (samePair x y r); reflexivity. Qed.








(** Scenario A: raw score 45, normalizedPriority 100, Implementation
    Challenge Critical, Strategic Importance High, no correlation. *)
Example calculateTargetImpact_scenarioA :
  map (fun a => (Qred (TargetImpactAnalysis.priorityScore a),
                 Qred (TargetImpactAnalysis.normalizedPriority a),
                 TargetImpactAnalysis.implementationChallenge a,
                 TargetImpactAnalysis.strategicImportance a,
                 CorrelationImpactSummary.impact
                   (TargetImpactAnalysis.correlationImpact a)))
      (calculateTargetImpact scenarioA)
  = [(45, 100, Critical, High, Isolated)].
Proof. reflexivity. Qed.

(** The sample project: raw scores 51, 45 and 45. *)
Example calculateTechnicalPriorities_sampleData :
  map (fun p => Qred (TechnicalPriority.score p))
      (calculateTechnicalPriorities sampleData) = [51; 45; 45].
Proof. reflexivity. Qed.

(** * Further properties of the engine and of the store *)

(** ** Scores and weights *)

Lemma strengthValue_nonneg (s : RelationshipStrength) : 0 <= strengthValue s.
Proof. destruct s; simpl; lra. Qed.

Lemma spec_strength_nonneg (rels : list Relationship.t)
    (c : CustomerRequirement.t) (t : TechnicalRequirement.t) :
  0 <= spec_strength rels c t.
Proof.
  induction rels as [|r rest IH]; simpl; [lra|].
  destruct (relationshipMatches c t r); [apply strengthValue_nonneg | exact IH].
Qed.

Lemma Qsum_nonneg (xs : list Q) :
  Forall (fun x => 0 <= x) xs -> 0 <= Qsum xs.
Proof.
  induction 1 as [|x xs Hx _ IH]; simpl; [lra|]. lra.
Qed.

Lemma Qsum_ge_member (xs : list Q) (x : Q) :
  Forall (fun y => 0 <= y) xs -> In x xs -> x <= Qsum xs.
Proof.
  induction 1 as [|y ys Hy Hys IH]; simpl; [contradiction|].
  pose proof (Qsum_nonneg ys Hys) as Hs.
  intros [-> | Hin]; [lra|]. specialize (IH Hin). lra.
Qed.

Lemma spec_score_nonneg (data : QFDData.t) (t : TechnicalRequirement.t) :
  (forall c, In c (QFDData.customerRequirements data) ->
             0 <= CustomerRequirement.importance c) ->
  0 <= spec_score data t.
Proof.
  intro H. unfold spec_score. apply Qsum_nonneg.
  apply Forall_map. apply Forall_forall. intros c Hc.
  apply Qmult_le_0_compat; [apply H; exact Hc | apply spec_strength_nonneg].
Qed.

(** Every entry of the priority list is the entry of a technical
    requirement, at the same index. *)
Lemma priority_origin (data : QFDData.t) (p : TechnicalPriority.t) :
  In p (calculateTechnicalPriorities data) ->
  exists i t,
    nth_error (QFDData.technicalRequirements data) i = Some t
    /\ nth_error (calculateTechnicalPriorities data) i = Some p
    /\ TechnicalPriority.id p = TechnicalRequirement.id t
    /\ TechnicalPriority.score p == spec_score data t.
Proof.
  intro Hin. destruct (In_nth_error _ _ Hin) as (i & Hi).
  destruct (nth_error (QFDData.technicalRequirements data) i) as [t|] eqn:Ht.
  - destruct (calculateTechnicalPriorities_nth data i t Ht)
      as (p' & Hp' & Hid & _ & Hs & _).
    assert (p' = p) by congruence. subst p'.
    exists i, t. repeat split; assumption.
  - unfold calculateTechnicalPriorities in Hi.
    rewrite nth_error_map, Ht in Hi. discriminate.
Qed.

Lemma analysis_origin (data : QFDData.t) (a : TargetImpactAnalysis.t) :
  In a (calculateTargetImpact data) ->
  exists i t,
    nth_error (QFDData.technicalRequirements data) i = Some t
    /\ nth_error (calculateTargetImpact data) i = Some a.
Proof.
  intro Hin. destruct (In_nth_error _ _ Hin) as (i & Hi).
  destruct (nth_error (QFDData.technicalRequirements data) i) as [t|] eqn:Ht.
  - exists i, t. split; [exact Ht | exact Hi].
  - unfold calculateTargetImpact in Hi. cbv zeta in Hi.
    rewrite nth_error_map, Ht in Hi. discriminate.
Qed.

(** X1. When no customer requirement has a negative importance, no score
    computed by [calculateTechnicalPriorities] is negative. *)
Theorem scores_nonnegative (data : QFDData.t) :
  (forall c, In c (QFDData.customerRequirements data) ->
             0 <= CustomerRequirement.importance c) ->
  forall p, In p (calculateTechnicalPriorities data) ->
            0 <= TechnicalPriority.score p.
Proof.
  intros H p Hp.
  destruct (priority_origin data p Hp) as (i & t & _ & _ & _ & Hs).
  rewrite Hs. apply spec_score_nonneg. exact H.
Qed.

Lemma sampleData_importances :
  forall c, In c (QFDData.customerRequirements sampleData) ->
            0 <= CustomerRequirement.importance c.
Proof.
  intros c [<- | [<- | [<- | []]]]; simpl; lra.
Defined.

Lemma scores_nonnegative_witness :
  (forall c, In c (QFDData.customerRequirements sampleData) ->
             0 <= CustomerRequirement.importance c)
  /\ forall p, In p (calculateTechnicalPriorities sampleData) ->
               0 <= TechnicalPriority.score p.
Proof.
  split; [exact sampleData_importances|].
  apply (scores_nonnegative sampleData). exact sampleData_importances.
Defined.

(** X2. A technical requirement without identifier is matched by no
    relationship record: its score is 0, whatever the relationships are. *)
Theorem unidentified_requirement_scores_zero (data : QFDData.t) (i : nat)
    (t : TechnicalRequirement.t) :
  nth_error (QFDData.technicalRequirements data) i = Some t ->
  TechnicalRequirement.id t = None ->
  exists p,
    nth_error (calculateTechnicalPriorities data) i = Some p
    /\ TechnicalPriority.score p == 0.
Proof.
  intros Ht Hid.
  destruct (calculateTechnicalPriorities_nth data i t Ht)
    as (p & Hp & _ & _ & Hs & _).
  exists p. split; [exact Hp|]. rewrite Hs. unfold spec_score.
  induction (QFDData.customerRequirements data) as [|c cs IH]; simpl.
  - reflexivity.
  - rewrite IH, spec_strength_absent; [ring|].
    intros r _. unfold relationshipMatches. rewrite Hid. simpl.
    apply andb_false_r.
Qed.

Lemma unidentified_requirement_scores_zero_witness :
  exists p,
    nth_error (calculateTechnicalPriorities draftData) 1 = Some p
    /\ TechnicalPriority.score p == 0.
Proof.
  apply (unidentified_requirement_scores_zero draftData 1
           (TechnicalRequirement.mk None "Unsaved requirement" "" "" 2 0));
    reflexivity.
Defined.

Lemma fold_left_scores_map (f : TechnicalPriority.t -> TechnicalPriority.t)
    (ps : list TechnicalPriority.t) (a : Q) :
  (forall p, TechnicalPriority.score (f p) = TechnicalPriority.score p) ->
  fold_left (fun sum p => sum + TechnicalPriority.score p) (map f ps) a
  = fold_left (fun sum p => sum + TechnicalPriority.score p) ps a.
Proof.
  intro Hf. revert a. induction ps as [|p ps IH]; intro a; simpl.
  - reflexivity.
  - rewrite Hf. apply IH.
Qed.

(** X3. Normalising twice is the same as normalising once: the second pass
    recomputes the same total and the same weights. *)
Theorem normalizeWeights_idempotent (ps : list TechnicalPriority.t) :
  normalizeWeights (normalizeWeights ps) = normalizeWeights ps.
Proof.
  unfold normalizeWeights at 2.
  destruct (Qeq_bool _ 0) eqn:E.
  - unfold normalizeWeights. rewrite E. reflexivity.
  - unfold normalizeWeights.
    rewrite fold_left_scores_map by (intro p; reflexivity).
    rewrite E, map_map. apply map_ext. intro p. reflexivity.
Qed.

(** X4. When no score is negative and the total is positive, every
    relativeWeight produced by [normalizeWeights] lies between 0 and 100. *)
Theorem normalizeWeights_range (ps : list TechnicalPriority.t) :
  Forall (fun p => 0 <= TechnicalPriority.score p) ps ->
  0 < spec_totalScore ps ->
  Forall (fun p => 0 <= TechnicalPriority.relativeWeight p <= 100)
         (normalizeWeights ps).
Proof.
  intros Hnn Hpos.
  assert (Hne : ~ spec_totalScore ps == 0) by lra.
  rewrite (normalizeWeights_nonzero ps Hne).
  apply Forall_map. apply Forall_forall. intros p Hp. simpl.
  rewrite totalScore_eq.
  assert (H0 : 0 <= TechnicalPriority.score p).
  { rewrite Forall_forall in Hnn. apply Hnn. exact Hp. }
  assert (Hle : TechnicalPriority.score p <= spec_totalScore ps).
  { unfold spec_totalScore. apply Qsum_ge_member.
    - apply Forall_map. exact Hnn.
    - apply in_map. exact Hp. }
  assert (Hq : 0 <= TechnicalPriority.score p / spec_totalScore ps <= 1).
  { split.
    - apply Qle_shift_div_l; [exact Hpos | lra].
    - apply Qle_shift_div_r; [exact Hpos | lra]. }
  lra.
Qed.

Lemma normalizeWeights_range_witness :
  Forall (fun p => 0 <= TechnicalPriority.relativeWeight p <= 100)
         (normalizeWeights scenarioB).
Proof.
  apply (normalizeWeights_range scenarioB).
  - repeat constructor; simpl; lra.
  - reflexivity.
Defined.

(** ** Normalised priority *)

Lemma score_in_scores (data : QFDData.t) (i : nat)
    (t : TechnicalRequirement.t) :
  nth_error (QFDData.technicalRequirements data) i = Some t ->
  exists s,
    In s (map TechnicalPriority.score (calculateTechnicalPriorities data))
    /\ s == spec_score data t.
Proof.
  intro Ht.
  destruct (calculateTechnicalPriorities_nth data i t Ht)
    as (p & Hp & _ & _ & Hs & _).
  exists (TechnicalPriority.score p). split; [|exact Hs].
  apply in_map. eapply nth_error_In. exact Hp.
Qed.

(** X5. When no customer requirement has a negative importance, every
    normalizedPriority computed by [calculateTargetImpact] lies between 0 and
    100. *)
Theorem normalizedPriority_range (data : QFDData.t) :
  (forall c, In c (QFDData.customerRequirements data) ->
             0 <= CustomerRequirement.importance c) ->
  forall a, In a (calculateTargetImpact data) ->
            0 <= TargetImpactAnalysis.normalizedPriority a <= 100.
Proof.
  intros Himp a Ha.
  destruct (analysis_origin data a Ha) as (i & t & Ht & Hi).
  destruct (calculateTargetImpact_nth data i t Ht) as (a' & Ha' & _ & _ & Hn).
  assert (a' = a) by congruence. subst a'.
  destruct (score_in_scores data i t Ht) as (s & Hs & Hst).
  pose proof (Math_max_ge_arg _ 1 s Hs) as Hle.
  pose proof (Math_max_ge_last
                (map TechnicalPriority.score (calculateTechnicalPriorities data))
                1) as H1.
  pose proof (spec_score_nonneg data t Himp) as H0.
  rewrite Hst in Hle. rewrite Hn.
  set (m := Math_max _ 1) in *.
  assert (Hm : 0 < m) by lra.
  assert (Hq : 0 <= spec_score data t / m <= 1).
  { split.
    - apply Qle_shift_div_l; [exact Hm | lra].
    - apply Qle_shift_div_r; [exact Hm | lra]. }
  lra.
Qed.

Lemma normalizedPriority_range_witness :
  Forall (fun a => 0 <= TargetImpactAnalysis.normalizedPriority a <= 100)
         (calculateTargetImpact sampleData).
Proof.
  apply Forall_forall.
  apply (normalizedPriority_range sampleData). exact sampleData_importances.
Defined.

(** X6. As soon as one score reaches 1, the requirement with the largest
    score has normalizedPriority 100. *)
Theorem top_requirement_normalized_100 (data : QFDData.t) :
  (exists p, In p (calculateTechnicalPriorities data)
             /\ 1 <= TechnicalPriority.score p) ->
  exists a,
    In a (calculateTargetImpact data)
    /\ TargetImpactAnalysis.normalizedPriority a == 100
    /\ forall p, In p (calculateTechnicalPriorities data) ->
                 TechnicalPriority.score p
                 <= TargetImpactAnalysis.priorityScore a.
Proof.
  intros (p & Hp & Hp1).
  set (scores := map TechnicalPriority.score (calculateTechnicalPriorities data)).
  pose proof (Math_max_ge_arg scores 1 _ (in_map TechnicalPriority.score _ _ Hp))
    as Hle.
  assert (Hatt : exists s, In s scores /\ Math_max scores 1 == s).
  { destruct (Math_max_attained scores 1) as [E | Hs]; [|exact Hs].
    exists (TechnicalPriority.score p).
    split; [apply in_map; exact Hp|]. rewrite E in *. lra. }
  destruct Hatt as (s & Hs & Hmax).
  apply in_map_iff in Hs. destruct Hs as (q & <- & Hq).
  destruct (priority_origin data q Hq) as (i & t & Ht & _ & _ & Hqs).
  destruct (calculateTargetImpact_nth data i t Ht)
    as (a & Ha & _ & Hps & Hn).
  exists a. split; [eapply nth_error_In; exact Ha|]. split.
  - rewrite Hn. fold scores. rewrite Hmax, Hqs.
    assert (Hnz : ~ spec_score data t == 0).
    { rewrite <- Hqs, <- Hmax. lra. }
    field. exact Hnz.
  - intros p' Hp'. rewrite Hps, <- Hqs, <- Hmax.
    apply Math_max_ge_arg. apply in_map. exact Hp'.
Qed.

Lemma top_requirement_normalized_100_witness :
  exists a,
    In a (calculateTargetImpact sampleData)
    /\ TargetImpactAnalysis.normalizedPriority a == 100
    /\ forall p, In p (calculateTechnicalPriorities sampleData) ->
                 TechnicalPriority.score p
                 <= TargetImpactAnalysis.priorityScore a.
Proof.
  apply (top_requirement_normalized_100 sampleData).
  eexists. split; [left; reflexivity|].
  vm_compute. discriminate.
Defined.

(** ** Classifier *)

(** X7. With normalizedPriority held fixed, raising the difficulty never
    lowers the Implementation Challenge band nor the Strategic Importance
    band. *)
Theorem classifier_monotone_in_difficulty (priority d1 d2 : Q) :
  d1 <= d2 ->
  band_le (getImplementationChallenge d1 priority)
          (getImplementationChallenge d2 priority)
  /\ band_le (getStrategicImportance priority d1)
             (getStrategicImportance priority d2).
Proof.
  intro Hle. unfold band_le. split.
  - unfold getImplementationChallenge.
    split_tests; simpl; try lia; exfalso; lra.
  - unfold getStrategicImportance.
    split_tests; simpl; try lia; exfalso; lra.
Qed.

Lemma classifier_monotone_in_difficulty_witness :
  band_le (getImplementationChallenge 1 60) (getImplementationChallenge 5 60)
  /\ band_le (getStrategicImportance 60 1) (getStrategicImportance 60 5).
Proof.
  apply (classifier_monotone_in_difficulty 60 1 5). lra.
Defined.

(** X8. A requirement of Critical Strategic Importance always has a Critical
    Implementation Challenge; one whose Implementation Challenge is Low,
    with a priority that is not negative, has difficulty at most 2 and is
    never of Critical Strategic Importance. *)
Theorem strategic_critical_is_challenge_critical (priority difficulty : Q) :
  (getStrategicImportance priority difficulty = Critical ->
   getImplementationChallenge difficulty priority = Critical)
  /\ (0 <= priority ->
      getImplementationChallenge difficulty priority = Low ->
      difficulty <= 2
      /\ getStrategicImportance priority difficulty <> Critical).
Proof.
  unfold getStrategicImportance, getImplementationChallenge.
  split_tests; split; intros; try discriminate; try reflexivity;
    try (exfalso; lra); try (split; [lra | discriminate]).
Qed.

(** ** Correlation summaries *)

Lemma countOf_Permutation (c : CorrelationType)
    (cs cs' : list TechnicalCorrelation.t) :
  Permutation cs cs' -> countOf c cs = countOf c cs'.
Proof.
  induction 1 as [|x l l' _ IH|x y l|l l' l'' _ IH1 _ IH2].
  - reflexivity.
  - rewrite !countOf_cons, IH. reflexivity.
  - rewrite !countOf_cons. lia.
  - congruence.
Qed.

Lemma Counters_eq (k k' : Counters) :
  positiveCount k = positiveCount k' ->
  negativeCount k = negativeCount k' ->
  strongPositiveCount k = strongPositiveCount k' ->
  strongNegativeCount k = strongNegativeCount k' ->
  k = k'.
Proof.
  destruct k, k'. simpl. intros -> -> -> ->. reflexivity.
Qed.

(** X9. The summary of a requirement does not depend on the order in which
    its correlation records are stored. *)
Theorem getCorrelationImpact_order_independent
    (cs cs' : list TechnicalCorrelation.t)
    (techReqs : list TechnicalRequirement.t)
    (priorities : list TechnicalPriority.t) :
  Permutation cs cs' ->
  getCorrelationImpact cs techReqs priorities
  = getCorrelationImpact cs' techReqs priorities.
Proof.
  intro HP. unfold getCorrelationImpact.
  assert (Hk : fold_left countCorrelation cs (mkCounters 0 0 0 0)
               = fold_left countCorrelation cs' (mkCounters 0 0 0 0)).
  { pose proof (counters_fold cs (mkCounters 0 0 0 0)) as H.
    pose proof (counters_fold cs' (mkCounters 0 0 0 0)) as H'.
    cbv zeta in H, H'.
    destruct H as (Hp & Hn & Hsp & Hsn), H' as (Hp' & Hn' & Hsp' & Hsn').
    apply Counters_eq.
    - rewrite Hp, Hp', (countOf_Permutation _ _ _ HP). reflexivity.
    - rewrite Hn, Hn', (countOf_Permutation _ _ _ HP). reflexivity.
    - rewrite Hsp, Hsp', (countOf_Permutation _ _ _ HP). reflexivity.
    - rewrite Hsn, Hsn', (countOf_Permutation _ _ _ HP). reflexivity. }
  rewrite Hk, (Permutation_length HP). reflexivity.
Qed.

Lemma getCorrelationImpact_order_independent_witness :
  getCorrelationImpact
    [TechnicalCorrelation.mk "tech1" "tech2" NEGATIVE;
     TechnicalCorrelation.mk "tech1" "tech3" STRONG_POSITIVE] [] []
  = getCorrelationImpact
      [TechnicalCorrelation.mk "tech1" "tech3" STRONG_POSITIVE;
       TechnicalCorrelation.mk "tech1" "tech2" NEGATIVE] [] [].
Proof.
  apply getCorrelationImpact_order_independent. apply perm_swap.
Defined.

Lemma countOf_total (cs : list TechnicalCorrelation.t) :
  (countOf NONE cs + countOf POSITIVE cs + countOf STRONG_POSITIVE cs
   + countOf NEGATIVE cs + countOf STRONG_NEGATIVE cs
   = Z.of_nat (List.length cs))%Z.
Proof.
  induction cs as [|corr cs IH].
  - reflexivity.
  - rewrite !countOf_cons. cbn [List.length]. rewrite Nat2Z.inj_succ.
    destruct (TechnicalCorrelation.correlation corr);
      cbn [CorrelationType_eqb]; lia.
Qed.

(** X10. In every summary the positive and negative counts are not negative
    and, together with the records of correlation None, account for all the
    records; the net impact lies between −2×negativeCount and
    2×positiveCount. *)
Theorem getCorrelationImpact_accounting (cs : list TechnicalCorrelation.t)
    (techReqs : list TechnicalRequirement.t)
    (priorities : list TechnicalPriority.t) :
  let s := getCorrelationImpact cs techReqs priorities in
  (0 <= CorrelationImpactSummary.positiveCount s
   /\ 0 <= CorrelationImpactSummary.negativeCount s
   /\ CorrelationImpactSummary.positiveCount s
      + CorrelationImpactSummary.negativeCount s + countOf NONE cs
      = CorrelationImpactSummary.totalCorrelations s
   /\ - 2 * CorrelationImpactSummary.negativeCount s
      <= CorrelationImpactSummary.netImpact s
      <= 2 * CorrelationImpactSummary.positiveCount s)%Z.
Proof.
  cbv zeta. unfold getCorrelationImpact.
  pose proof (counters_fold cs (mkCounters 0 0 0 0)) as H.
  cbv zeta in H.
  cbn [positiveCount negativeCount strongPositiveCount strongNegativeCount]
    in H.
  destruct H as (Hp & Hn & Hsp & Hsn).
  cbn [CorrelationImpactSummary.positiveCount
       CorrelationImpactSummary.negativeCount
       CorrelationImpactSummary.totalCorrelations
       CorrelationImpactSummary.netImpact].
  rewrite Hp, Hn, Hsp, Hsn.
  pose proof (countOf_total cs).
  assert (Hpos : forall c, (0 <= countOf c cs)%Z) by (intro c; unfold countOf; lia).
  pose proof (Hpos POSITIVE). pose proof (Hpos STRONG_POSITIVE).
  pose proof (Hpos NEGATIVE). pose proof (Hpos STRONG_NEGATIVE).
  lia.
Qed.

(** ** Insights *)

Lemma find_by_id_techReq (data : QFDData.t) (i : string) :
  hasTechReq data i ->
  exists r,
    find (fun r => id_eqb (TechnicalRequirement.id r) (Some i))
         (QFDData.technicalRequirements data) = Some r.
Proof.
  unfold hasTechReq. intro H. apply in_map_iff in H.
  destruct H as (t & Hid & Hin).
  destruct (find _ _) as [r|] eqn:E; [exists r; reflexivity|].
  pose proof (find_none _ _ E t Hin) as Hf. simpl in Hf.
  rewrite Hid, id_eqb_refl in Hf. discriminate.
Qed.

Lemma find_by_id_priority (data : QFDData.t) (i : string) :
  hasTechReq data i ->
  exists p,
    find (fun p => id_eqb (TechnicalPriority.id p) (Some i))
         (calculateTechnicalPriorities data) = Some p.
Proof.
  unfold hasTechReq. intro H. apply in_map_iff in H.
  destruct H as (t & Hid & Hin).
  destruct (In_nth_error _ _ Hin) as (n & Hn).
  destruct (calculateTechnicalPriorities_nth data n t Hn)
    as (p & Hp & Hpid & _).
  destruct (find _ _) as [q|] eqn:E; [exists q; reflexivity|].
  pose proof (find_none _ _ E p (nth_error_In _ _ Hp)) as Hf. simpl in Hf.
  rewrite Hpid, Hid, id_eqb_refl in Hf. discriminate.
Qed.

Lemma pushInsight_length (data : QFDData.t)
    (prios : list TechnicalPriority.t) (acc : list CorrelationInsight.t)
    (corr : TechnicalCorrelation.t) :
  (List.length (pushInsight data prios acc corr) <= S (List.length acc))%nat
  /\ (List.length acc <= List.length (pushInsight data prios acc corr))%nat.
Proof.
  unfold pushInsight.
  repeat match goal with
    | |- context [match find ?f ?l with Some _ => _ | None => _ end] =>
        destruct (find f l)
    end; rewrite ?length_app; simpl; lia.
Qed.

(** X11. [calculateCorrelationImpact] returns the priorities of
    [calculateTechnicalPriorities] unchanged and at most one insight per
    correlation record; a record naming a technical requirement that does
    not exist produces no insight and no error. *)
Theorem calculateCorrelationImpact_bounds (data : QFDData.t) :
  priorities (calculateCorrelationImpact data)
  = calculateTechnicalPriorities data
  /\ (List.length (correlationInsights (calculateCorrelationImpact data))
      <= List.length (QFDData.technicalCorrelations data))%nat
  /\ (forall corr acc,
        ~ hasTechReq data (TechnicalCorrelation.techReq1Id corr)
        \/ ~ hasTechReq data (TechnicalCorrelation.techReq2Id corr) ->
        pushInsight data (calculateTechnicalPriorities data) acc corr = acc).
Proof.
  split; [reflexivity|]. split.
  - unfold calculateCorrelationImpact. cbn [correlationInsights].
    assert (H : forall cs acc,
               (List.length
                  (fold_left (pushInsight data (calculateTechnicalPriorities data))
                             cs acc)
                <= List.length acc + List.length cs)%nat).
    { induction cs as [|corr cs IH]; intro acc; simpl; [lia|].
      specialize (IH (pushInsight data (calculateTechnicalPriorities data)
                                  acc corr)).
      pose proof (pushInsight_length data (calculateTechnicalPriorities data)
                                     acc corr).
      lia. }
    apply (H _ []).
  - intros corr acc Hmissing. unfold pushInsight.
    assert (Hnone : forall i, ~ hasTechReq data i ->
              find (fun r => id_eqb (TechnicalRequirement.id r) (Some i))
                   (QFDData.technicalRequirements data) = None).
    { intros i Hi. destruct (find _ _) as [r|] eqn:E; [|reflexivity].
      exfalso. apply Hi. apply find_some in E. destruct E as [Hin Hid].
      apply id_eqb_eq in Hid. unfold hasTechReq. rewrite <- Hid.
      apply in_map. exact Hin. }
    destruct Hmissing as [H1 | H2].
    + rewrite (Hnone _ H1). reflexivity.
    + rewrite (Hnone _ H2).
      destruct (find _ (QFDData.technicalRequirements data)); reflexivity.
Qed.

Lemma fold_pushInsight_resolved (data : QFDData.t)
    (cs : list TechnicalCorrelation.t) (acc : list CorrelationInsight.t) :
  Forall (fun corr =>
            hasTechReq data (TechnicalCorrelation.techReq1Id corr)
            /\ hasTechReq data (TechnicalCorrelation.techReq2Id corr)) cs ->
  map CorrelationInsight.correlation
      (fold_left (pushInsight data (calculateTechnicalPriorities data)) cs acc)
  = map CorrelationInsight.correlation acc
    ++ map TechnicalCorrelation.correlation cs.
Proof.
  intro H. revert acc.
  induction H as [|corr cs [H1 H2] _ IH]; intro acc; simpl.
  - rewrite app_nil_r. reflexivity.
  - rewrite IH. unfold pushInsight.
    destruct (find_by_id_techReq data _ H1) as (r1 & ->).
    destruct (find_by_id_techReq data _ H2) as (r2 & ->).
    destruct (find_by_id_priority data _ H1) as (p1 & ->).
    destruct (find_by_id_priority data _ H2) as (p2 & ->).
    rewrite map_app, <- app_assoc. reflexivity.
Qed.

(** X12. When every correlation record names two existing technical
    requirements, there is exactly one insight per record, in the order of
    the records and with the correlation of its record. *)
Theorem calculateCorrelationImpact_complete (data : QFDData.t) :
  correlationsResolved data ->
  map CorrelationInsight.correlation
      (correlationInsights (calculateCorrelationImpact data))
  = map TechnicalCorrelation.correlation (QFDData.technicalCorrelations data).
Proof.
  intro H. unfold calculateCorrelationImpact. cbn [correlationInsights].
  rewrite (fold_pushInsight_resolved data _ [] H). reflexivity.
Qed.

Lemma sampleData_resolved : correlationsResolved sampleData.
Proof.
  unfold correlationsResolved, hasTechReq. simpl.
  repeat (apply Forall_cons; [split; auto 6|]).
  apply Forall_nil.
Defined.

Lemma calculateCorrelationImpact_complete_witness :
  map CorrelationInsight.correlation
      (correlationInsights (calculateCorrelationImpact sampleData))
  = [NEGATIVE; POSITIVE; STRONG_POSITIVE].
Proof.
  apply (calculateCorrelationImpact_complete sampleData sampleData_resolved).
Defined.

(** ** Insight urgency *)

(** X13. The urgency of an insight never decreases when the sum of the two
    scores grows and the correlation becomes stronger (in absolute value). *)
Theorem getInsightPriority_monotone (i1 i2 : CorrelationInsight.t) :
  CorrelationInsight.priority1Score i1 + CorrelationInsight.priority2Score i1
  <= CorrelationInsight.priority1Score i2 + CorrelationInsight.priority2Score i2 ->
  (Z.abs (correlationValue (CorrelationInsight.correlation i1))
   <= Z.abs (correlationValue (CorrelationInsight.correlation i2)))%Z ->
  (insightRank (getInsightPriority i1)
   <= insightRank (getInsightPriority i2))%nat.
Proof.
  intros Hs Hc. unfold getInsightPriority.
  set (a1 := Z.abs (correlationValue (CorrelationInsight.correlation i1))) in *.
  set (a2 := Z.abs (correlationValue (CorrelationInsight.correlation i2))) in *.
  rewrite !Z.geb_leb.
  destruct (Z.leb_spec 2 a1), (Z.leb_spec 1 a1),
           (Z.leb_spec 2 a2), (Z.leb_spec 1 a2);
    try lia;
    split_tests; simpl; try lia; exfalso; lra.
Qed.

Lemma getInsightPriority_monotone_witness :
  (insightRank
     (getInsightPriority
        (CorrelationInsight.mk "a" "b" POSITIVE 10 10 "" ""))
   <= insightRank
        (getInsightPriority
           (CorrelationInsight.mk "a" "b" STRONG_NEGATIVE 30 25 "" "")))%nat.
Proof.
  apply getInsightPriority_monotone; simpl; [lra | lia].
Defined.

(** X14. An insight on a strong correlation is critical exactly when its
    recommendation is the urgent one (both test that the two raw scores sum
    to more than 50); an insight on any correlation other than None is never
    low; an insight on a None record is at most medium. *)
Theorem getInsightPriority_and_recommendation (ins : CorrelationInsight.t) :
  let c := CorrelationInsight.correlation ins in
  let s1 := CorrelationInsight.priority1Score ins in
  let s2 := CorrelationInsight.priority2Score ins in
  (c = STRONG_POSITIVE ->
   (getInsightPriority ins = insightCritical
    <-> getCorrelationRecommendation c s1 s2
        = "HIGH PRIORITY: Focus on solutions that address both requirements simultaneously for maximum impact."%string))
  /\ (c = STRONG_NEGATIVE ->
      (getInsightPriority ins = insightCritical
       <-> getCorrelationRecommendation c s1 s2
           = "URGENT: Strong conflict between important requirements. Consider alternative approaches or accept trade-offs."%string))
  /\ (getInsightPriority ins = insightCritical ->
      c = STRONG_POSITIVE \/ c = STRONG_NEGATIVE)
  /\ (c <> NONE -> getInsightPriority ins <> insightLow)
  /\ (c = NONE ->
      (insightRank (getInsightPriority ins) <= insightRank insightMedium)%nat
      /\ (getInsightPriority ins = insightMedium <-> 15 < s1 + s2)).
Proof.
  cbv zeta. unfold getInsightPriority, getCorrelationRecommendation.
  destruct (CorrelationInsight.correlation ins);
    cbn [correlationValue Z.abs Z.geb Z.compare Pos.compare Pos.compare_cont
         andb orb];
    split_tests; cbn [andb orb insightRank];
    repeat split; intros; try reflexivity; try discriminate;
    try congruence; try lia; try lra; try tauto;
    try (exfalso; lra).
Qed.

(** ** Presentation *)

(** X15. The symbol, the colour, the title and the impact description each
    identify the correlation value they present, and the symbol and the
    colour of a relationship identify its strength; the impact description
    does not depend on the scores. *)
Theorem presentation_unambiguous :
  (forall c1 c2 : CorrelationType,
      (getCorrelationSymbol c1 = getCorrelationSymbol c2 -> c1 = c2)
      /\ (getCorrelationColor c1 = getCorrelationColor c2 -> c1 = c2)
      /\ (getCorrelationTitle c1 = getCorrelationTitle c2 -> c1 = c2)
      /\ (forall s1 s2 s1' s2',
             getCorrelationImpactDescription c1 s1 s2
             = getCorrelationImpactDescription c2 s1' s2' -> c1 = c2))
  /\ (forall c s1 s2 s1' s2',
         getCorrelationImpactDescription c s1 s2
         = getCorrelationImpactDescription c s1' s2')
  /\ (forall r1 r2 : RelationshipStrength,
         (getRelationshipSymbol r1 = getRelationshipSymbol r2 -> r1 = r2)
         /\ (getRelationshipColor r1 = getRelationshipColor r2 -> r1 = r2)).
Proof.
  split; [|split].
  - intros c1 c2. destruct c1, c2; simpl;
      repeat split; intros; try reflexivity; discriminate.
  - intros c s1 s2 s1' s2'. reflexivity.
  - intros r1 r2. destruct r1, r2; simpl;
      repeat split; intros; try reflexivity; discriminate.
Qed.

(** ** The relationship store *)

(** An index returned by [findIndex] is the first match: nothing before it
    matches, and removing or replacing at that index acts on that element. *)
Lemma findIndex_first {A : Type} (f : A -> bool) (xs : list A) (i : nat) :
  findIndex f xs = Some i ->
  exists pre old post,
    xs = pre ++ old :: post
    /\ f old = true
    /\ (forall x, In x pre -> f x = false)
    /\ (forall v, setAt i v xs = pre ++ v :: post)
    /\ splice1 i xs = pre ++ post.
Proof.
  revert i. induction xs as [|x0 rest IH]; simpl; intros i H; [discriminate|].
  destruct (f x0) eqn:E.
  - injection H as <-. exists [], x0, rest.
    repeat split; try assumption. intros x [].
  - destruct (findIndex f rest) as [j|]; [|discriminate].
    injection H as <-.
    destruct (IH j eq_refl) as (pre & old & post & -> & Hold & Hpre & Hset & Hsp).
    exists (x0 :: pre), old, post.
    repeat split; try assumption.
    + intros x [<- | Hin]; [exact E | apply Hpre; exact Hin].
    + intro v. simpl. rewrite Hset. reflexivity.
    + simpl. rewrite Hsp. reflexivity.
Qed.

Lemma find_all_false {A : Type} (f : A -> bool) (xs : list A) :
  (forall x, In x xs -> f x = false) -> find f xs = None.
Proof.
  induction xs as [|x rest IH]; intro H; simpl; [reflexivity|].
  rewrite (H x (or_introl eq_refl)). apply IH.
  intros y Hy. apply H. right. exact Hy.
Qed.

Lemma find_app_split {A : Type} (f : A -> bool) (l1 l2 : list A) :
  find f (l1 ++ l2)
  = match find f l1 with Some x => Some x | None => find f l2 end.
Proof.
  induction l1 as [|x l1 IH]; simpl; [reflexivity|].
  destruct (f x); [reflexivity | exact IH].
Qed.

(** A lookup that does not select [x] does not see whether [x] is stored,
    replaced or removed. *)
Lemma find_skip {A : Type} (f : A -> bool) (pre post : list A) (x : A) :
  f x = false -> find f (pre ++ x :: post) = find f (pre ++ post).
Proof.
  intro H. rewrite !find_app_split. simpl. rewrite H. reflexivity.
Qed.

Lemma find_skip_last {A : Type} (f : A -> bool) (l : list A) (x : A) :
  f x = false -> find f (l ++ [x]) = find f l.
Proof.
  intro H. rewrite find_app_split. simpl. rewrite H.
  destruct (find f l); reflexivity.
Qed.

Lemma filter_length_zero {A : Type} (f : A -> bool) (xs : list A) :
  List.length (filter f xs) = 0%nat -> forall x, In x xs -> f x = false.
Proof.
  induction xs as [|x0 rest IH]; simpl; intros H x Hin; [contradiction|].
  destruct (f x0) eqn:E; [discriminate|].
  destruct Hin as [<- | Hin]; [exact E | apply IH; assumption].
Qed.

Lemma filter_all_false {A : Type} (f : A -> bool) (xs : list A) :
  (forall x, In x xs -> f x = false) -> filter f xs = [].
Proof.
  induction xs as [|x rest IH]; intro H; simpl; [reflexivity|].
  rewrite (H x (or_introl eq_refl)). apply IH.
  intros y Hy. apply H. right. exact Hy.
Qed.

Lemma relPair_self (c t : string) (s : RelationshipStrength) :
  relPair c t (Relationship.mk c t s) = true.
Proof. unfold relPair. simpl. rewrite !String.eqb_refl. reflexivity. Qed.

Lemma relPair_eq (c t : string) (r : Relationship.t) :
  relPair c t r = true
  <-> Relationship.customerReqId r = c /\ Relationship.technicalReqId r = t.
Proof.
  unfold relPair. rewrite andb_true_iff, !String.eqb_eq. reflexivity.
Qed.

(** Two different pairs never select the same record. *)
Lemma relPair_other (c t c' t' : string) (r : Relationship.t) :
  ~ (c' = c /\ t' = t) -> relPair c t r = true -> relPair c' t' r = false.
Proof.
  intros Hne Hr. apply relPair_eq in Hr. destruct Hr as [Hc Ht].
  destruct (relPair c' t' r) eqn:E; [|reflexivity].
  apply relPair_eq in E. destruct E as [Hc' Ht'].
  exfalso. apply Hne. split; congruence.
Qed.

(** The relationship list after [updateRelationship], by cases on the
    search and on the strength. *)
Lemma updateRelationship_relationships (c t : string)
    (s : RelationshipStrength) (prev : QFDData.t) :
  let rels := QFDData.relationships prev in
  (findIndex (relPair c t) rels = None
   /\ (forall r, In r rels -> relPair c t r = false)
   /\ QFDData.relationships (updateRelationship c t s prev)
      = if RelationshipStrength_eqb s NONE_REL then rels
        else rels ++ [Relationship.mk c t s])
  \/ (exists pre old post,
        rels = pre ++ old :: post
        /\ relPair c t old = true
        /\ (forall r, In r pre -> relPair c t r = false)
        /\ QFDData.relationships (updateRelationship c t s prev)
           = if RelationshipStrength_eqb s NONE_REL then pre ++ post
             else pre ++ Relationship.mk c t s :: post).
Proof.
  cbv zeta. unfold updateRelationship. cbn [QFDData.relationships].
  destruct (findIndex (relPair c t) (QFDData.relationships prev))
    as [i|] eqn:E.
  - right.
    destruct (findIndex_first _ _ _ E)
      as (pre & old & post & Hrels & Hold & Hpre & Hset & Hsp).
    exists pre, old, post.
    repeat split; try assumption.
    destruct (RelationshipStrength_eqb s NONE_REL); [exact Hsp | apply Hset].
  - left. split; [reflexivity|].
    split; [apply findIndex_None; exact E | reflexivity].
Qed.

Lemma strength_eqb_NONE (s : RelationshipStrength) :
  RelationshipStrength_eqb s NONE_REL = true <-> s = NONE_REL.
Proof. destruct s; simpl; split; congruence. Qed.

(** X16. Storing a strength other than None for a pair and reading the pair
    back gives that strength, whatever the store held before. *)
Theorem updateRelationship_then_get (c t : string) (s : RelationshipStrength)
    (prev : QFDData.t) :
  s <> NONE_REL ->
  getRelationshipStrength (updateRelationship c t s prev) c t = s.
Proof.
  intro Hs.
  assert (E : RelationshipStrength_eqb s NONE_REL = false).
  { destruct (RelationshipStrength_eqb s NONE_REL) eqn:E; [|reflexivity].
    apply strength_eqb_NONE in E. contradiction. }
  unfold getRelationshipStrength.
  destruct (updateRelationship_relationships c t s prev)
    as [(_ & Hnone & ->) | (pre & old & post & _ & _ & Hpre & ->)];
    rewrite E, find_app_split.
  - rewrite (find_all_false _ _ Hnone). simpl.
    rewrite relPair_self. reflexivity.
  - rewrite (find_all_false _ _ Hpre). simpl.
    rewrite relPair_self. reflexivity.
Qed.

Lemma updateRelationship_then_get_witness :
  getRelationshipStrength
    (updateRelationship "cust1" "tech2" WEAK sampleData) "cust1" "tech2"
  = WEAK.
Proof.
  apply updateRelationship_then_get. discriminate.
Defined.

Lemma relCount_app (c t : string) (l1 l2 : list Relationship.t) :
  relCount c t (l1 ++ l2) = (relCount c t l1 + relCount c t l2)%nat.
Proof. unfold relCount. rewrite filter_app, length_app. reflexivity. Qed.

Lemma relCount_cons (c t : string) (r : Relationship.t)
    (l : list Relationship.t) :
  relCount c t (r :: l)
  = ((if relPair c t r then 1 else 0) + relCount c t l)%nat.
Proof. unfold relCount. simpl. destruct (relPair c t r); reflexivity. Qed.

Lemma relCount_all_false (c t : string) (l : list Relationship.t) :
  (forall r, In r l -> relPair c t r = false) -> relCount c t l = 0%nat.
Proof.
  intro H. unfold relCount. rewrite (filter_all_false _ _ H). reflexivity.
Qed.


(** X18. An update of the pair (c, t) leaves what every other pair reads
    back unchanged. *)
Theorem updateRelationship_other_pair (c t c' t' : string)
    (s : RelationshipStrength) (prev : QFDData.t) :
  ~ (c' = c /\ t' = t) ->
  getRelationshipStrength (updateRelationship c t s prev) c' t'
  = getRelationshipStrength prev c' t'.
Proof.
  intro Hne. unfold getRelationshipStrength.
  assert (Hnew : relPair c' t' (Relationship.mk c t s) = false).
  { apply (relPair_other c t); [exact Hne | apply relPair_self]. }
  destruct (updateRelationship_relationships c t s prev)
    as [(_ & _ & ->) | (pre & old & post & Hrels & Hold & _ & ->)].
  - destruct (RelationshipStrength_eqb s NONE_REL); [reflexivity|].
    rewrite (find_skip_last _ _ _ Hnew). reflexivity.
  - rewrite Hrels.
    rewrite (find_skip _ pre post old (relPair_other c t c' t' old Hne Hold)).
    destruct (RelationshipStrength_eqb s NONE_REL); [reflexivity|].
    rewrite (find_skip _ pre post _ Hnew). reflexivity.
Qed.

Lemma updateRelationship_other_pair_witness :
  getRelationshipStrength
    (updateRelationship "cust1" "tech2" NONE_REL sampleData) "cust1" "tech1"
  = getRelationshipStrength sampleData "cust1" "tech1".
Proof.
  apply updateRelationship_other_pair. intros [_ H]. discriminate.
Defined.

(** A pair with at most one record before an update has at most one
    record after it. *)
Lemma relCount_after_update (c t c' t' : string) (s : RelationshipStrength)
    (prev : QFDData.t) :
  (relCount c' t' (QFDData.relationships prev) <= 1)%nat ->
  (relCount c' t' (QFDData.relationships (updateRelationship c t s prev))
   <= 1)%nat.
Proof.
  intro Hone.
  destruct (updateRelationship_relationships c t s prev)
    as [(_ & Hnone & ->) | (pre & old & post & Hrels & Hold & Hpre & ->)].
  - destruct (RelationshipStrength_eqb s NONE_REL); [exact Hone|].
    rewrite relCount_app, relCount_cons.
    change (relCount c' t' []) with 0%nat.
    destruct (relPair c' t' (Relationship.mk c t s)) eqn:E; [|lia].
    apply relPair_eq in E. simpl in E. destruct E as [-> ->].
    rewrite (relCount_all_false _ _ _ Hnone). lia.
  - rewrite Hrels, relCount_app, relCount_cons in Hone.
    destruct (RelationshipStrength_eqb s NONE_REL).
    + rewrite relCount_app. lia.
    + rewrite relCount_app, relCount_cons.
      destruct (relPair c' t' (Relationship.mk c t s)) eqn:E; [|lia].
      apply relPair_eq in E. simpl in E. destruct E as [-> ->].
      rewrite Hold in Hone. lia.
Qed.


Lemma initialData_onePerRelationship :
  onePerRelationship (QFDData.relationships initialData).
Proof. intros c t. apply Nat.le_0_l. Defined.


Lemma find_pointwise {A : Type} (f g : A -> bool) (xs : list A) :
  (forall x, f x = g x) -> find f xs = find g xs.
Proof.
  intro H. induction xs as [|x rest IH]; simpl; [reflexivity|].
  rewrite H, IH. reflexivity.
Qed.

(** X20. The strength shown in the matrix is the strength used by the
    scorer: for a customer and a technical requirement that have
    identifiers, the [relationshipValue] of [calculateTechnicalPriorities]
    is the value of [getRelationshipStrength] at their identifiers. *)
Theorem matrix_strength_is_scored_strength (data : QFDData.t)
    (custReq : CustomerRequirement.t) (techReq : TechnicalRequirement.t)
    (cid tid : string) :
  CustomerRequirement.id custReq = Some cid ->
  TechnicalRequirement.id techReq = Some tid ->
  match find (relationshipMatches custReq techReq)
             (QFDData.relationships data) with
  | Some r => strengthValue (Relationship.strength r)
  | None => strengthValue NONE_REL
  end
  = strengthValue (getRelationshipStrength data cid tid).
Proof.
  intros Hc Ht. unfold getRelationshipStrength.
  rewrite (find_pointwise (relationshipMatches custReq techReq)
                          (relPair cid tid)).
  - destruct (find _ _); reflexivity.
  - intro r. unfold relationshipMatches, relPair. rewrite Hc, Ht. reflexivity.
Qed.

Lemma matrix_strength_is_scored_strength_witness :
  match find (relationshipMatches
                (CustomerRequirement.mk (Some "cust1"%string)
                   "Easy to use interface" 5 [3; 4])
                (TechnicalRequirement.mk (Some "tech1"%string)
                   "Response time" "ms" "<200" 3 0))
             (QFDData.relationships sampleData) with
  | Some r => strengthValue (Relationship.strength r)
  | None => strengthValue NONE_REL
  end
  = strengthValue (getRelationshipStrength sampleData "cust1" "tech1").
Proof.
  apply matrix_strength_is_scored_strength; reflexivity.
Defined.

Lemma fold_left_pointwise {A B : Type} (f g : A -> B -> A) (l : list B)
    (a : A) :
  (forall x y, f x y = g x y) -> fold_left f l a = fold_left g l a.
Proof.
  intro H. revert a. induction l as [|y l IH]; intro a; simpl; [reflexivity|].
  rewrite H. apply IH.
Qed.

(** X21. An update of the pair (c, t) changes no entry of the priority list
    other than those of the technical requirement t. *)
Theorem updateRelationship_other_scores (c t : string)
    (s : RelationshipStrength) (prev : QFDData.t) (i : nat)
    (t' : TechnicalRequirement.t) :
  nth_error (QFDData.technicalRequirements prev) i = Some t' ->
  TechnicalRequirement.id t' <> Some t ->
  nth_error (calculateTechnicalPriorities (updateRelationship c t s prev)) i
  = nth_error (calculateTechnicalPriorities prev) i.
Proof.
  intros Ht' Hid.
  assert (Hmiss : forall custReq r,
             Relationship.technicalReqId r = t ->
             relationshipMatches custReq t' r = false).
  { intros custReq r Hr. unfold relationshipMatches. rewrite Hr.
    destruct (id_eqb (Some t) (TechnicalRequirement.id t')) eqn:E.
    - apply id_eqb_eq in E. congruence.
    - apply andb_false_r. }
  assert (Hfind : forall custReq,
             find (relationshipMatches custReq t')
                  (QFDData.relationships (updateRelationship c t s prev))
             = find (relationshipMatches custReq t')
                    (QFDData.relationships prev)).
  { intro custReq.
    destruct (updateRelationship_relationships c t s prev)
      as [(_ & _ & ->) | (pre & old & post & Hrels & Hold & _ & ->)].
    - destruct (RelationshipStrength_eqb s NONE_REL); [reflexivity|].
      apply find_skip_last. apply Hmiss. reflexivity.
    - rewrite Hrels. apply relPair_eq in Hold. destruct Hold as [_ Hold].
      rewrite (find_skip _ pre post old (Hmiss custReq old Hold)).
      destruct (RelationshipStrength_eqb s NONE_REL); [reflexivity|].
      apply find_skip. apply Hmiss. reflexivity. }
  unfold calculateTechnicalPriorities.
  rewrite !nth_error_map.
  change (QFDData.technicalRequirements (updateRelationship c t s prev))
    with (QFDData.technicalRequirements prev).
  change (QFDData.customerRequirements (updateRelationship c t s prev))
    with (QFDData.customerRequirements prev).
  rewrite Ht'. simpl. f_equal. f_equal.
  apply fold_left_pointwise. intros sum custReq.
  rewrite Hfind. reflexivity.
Qed.

Lemma updateRelationship_other_scores_witness :
  nth_error (calculateTechnicalPriorities
               (updateRelationship "cust3" "tech1" WEAK sampleData)) 1
  = nth_error (calculateTechnicalPriorities sampleData) 1.
Proof.
  apply (updateRelationship_other_scores "cust3" "tech1" WEAK sampleData 1
           (TechnicalRequirement.mk (Some "tech2"%string)
              "UI complexity score" "points" "<50" 2 0)).
  - reflexivity.
  - discriminate.
Defined.

(** ** The correlation store *)

(** The correlation list after [updateCorrelation], by cases on the search
    and on the correlation. *)
Lemma updateCorrelation_correlations (a b : string) (c : CorrelationType)
    (prev : QFDData.t) :
  let cs := QFDData.technicalCorrelations prev in
  (findIndex (samePair a b) cs = None
   /\ (forall r, In r cs -> samePair a b r = false)
   /\ QFDData.technicalCorrelations (updateCorrelation a b c prev)
      = if CorrelationType_eqb c NONE then cs
        else cs ++ [spec_canonical a b c])
  \/ (exists pre old post,
        cs = pre ++ old :: post
        /\ samePair a b old = true
        /\ (forall r, In r pre -> samePair a b r = false)
        /\ QFDData.technicalCorrelations (updateCorrelation a b c prev)
           = if CorrelationType_eqb c NONE then pre ++ post
             else pre ++ spec_canonical a b c :: post).
Proof.
  cbv zeta. unfold updateCorrelation. cbn [QFDData.technicalCorrelations].
  rewrite <- sortPair_canonical.
  destruct (sortPair a b) as [req1 req2].
  destruct (findIndex (samePair a b) (QFDData.technicalCorrelations prev))
    as [i|] eqn:E.
  - right.
    destruct (findIndex_first _ _ _ E)
      as (pre & old & post & Hcs & Hold & Hpre & Hset & Hsp).
    exists pre, old, post.
    repeat split; try assumption.
    destruct (CorrelationType_eqb c NONE); [exact Hsp | apply Hset].
  - left. split; [reflexivity|].
    split; [apply findIndex_None; exact E | reflexivity].
Qed.

Lemma correlation_eqb_NONE (c : CorrelationType) :
  CorrelationType_eqb c NONE = true <-> c = NONE.
Proof. destruct c; simpl; split; congruence. Qed.

Lemma getCorrelation_sym (data : QFDData.t) (a b : string) :
  getCorrelation data a b = getCorrelation data b a.
Proof.
  unfold getCorrelation.
  rewrite (find_pointwise (samePair a b) (samePair b a));
    [reflexivity | intro r; apply samePair_sym].
Qed.

Lemma spec_canonical_correlation (a b : string) (c : CorrelationType) :
  TechnicalCorrelation.correlation (spec_canonical a b c) = c.
Proof. unfold spec_canonical. destruct (String.ltb a b); reflexivity. Qed.

(** X22. Storing a correlation other than None for a pair and reading the
    pair back, in either order of the two identifiers, gives that
    correlation, whatever the store held before. *)
Theorem updateCorrelation_then_get (a b : string) (c : CorrelationType)
    (prev : QFDData.t) :
  c <> NONE ->
  getCorrelation (updateCorrelation a b c prev) a b = c
  /\ getCorrelation (updateCorrelation a b c prev) b a = c.
Proof.
  intro Hc.
  assert (E : CorrelationType_eqb c NONE = false).
  { destruct (CorrelationType_eqb c NONE) eqn:E; [|reflexivity].
    apply correlation_eqb_NONE in E. contradiction. }
  assert (H : getCorrelation (updateCorrelation a b c prev) a b = c).
  { unfold getCorrelation.
    destruct (updateCorrelation_correlations a b c prev)
      as [(_ & Hnone & ->) | (pre & old & post & _ & _ & Hpre & ->)];
      rewrite E, find_app_split.
    - rewrite (find_all_false _ _ Hnone). simpl.
      rewrite samePair_canonical. apply spec_canonical_correlation.
    - rewrite (find_all_false _ _ Hpre). simpl.
      rewrite samePair_canonical. apply spec_canonical_correlation. }
  split; [exact H | rewrite getCorrelation_sym; exact H].
Qed.

Lemma updateCorrelation_then_get_witness :
  getCorrelation (updateCorrelation "tech3" "tech1" STRONG_NEGATIVE sampleData)
                 "tech3" "tech1" = STRONG_NEGATIVE
  /\ getCorrelation (updateCorrelation "tech3" "tech1" STRONG_NEGATIVE sampleData)
                    "tech1" "tech3" = STRONG_NEGATIVE.
Proof.
  apply updateCorrelation_then_get. discriminate.
Defined.

Lemma pairCount_all_false (a b : string) (l : list TechnicalCorrelation.t) :
  (forall r, In r l -> samePair a b r = false) -> pairCount a b l = 0%nat.
Proof.
  intro H. unfold pairCount. rewrite (filter_all_false _ _ H). reflexivity.
Qed.


Lemma samePair_other (a b x y : string) (r : TechnicalCorrelation.t) :
  ~ ((x = a /\ y = b) \/ (x = b /\ y = a)) ->
  samePair a b r = true -> samePair x y r = false.
Proof.
  intros Hne Hr.
  destruct (samePair x y r) eqn:E; [|reflexivity].
  exfalso. apply Hne.
  unfold samePair in Hr, E.
  apply orb_true_iff in Hr, E.
  rewrite !andb_true_iff, !String.eqb_eq in Hr, E.
  destruct Hr as [[H1 H2] | [H1 H2]], E as [[E1 E2] | [E1 E2]];
    [left | right | right | left]; split; congruence.
Qed.

(** X24. An update of the unordered pair {a, b} leaves what every other
    pair reads back unchanged. *)
Theorem updateCorrelation_other_pair (a b x y : string) (c : CorrelationType)
    (prev : QFDData.t) :
  ~ ((x = a /\ y = b) \/ (x = b /\ y = a)) ->
  getCorrelation (updateCorrelation a b c prev) x y
  = getCorrelation prev x y.
Proof.
  intro Hne. unfold getCorrelation.
  assert (Hnew : samePair x y (spec_canonical a b c) = false).
  { apply (samePair_other a b); [exact Hne | apply samePair_canonical]. }
  destruct (updateCorrelation_correlations a b c prev)
    as [(_ & _ & ->) | (pre & old & post & Hcs & Hold & _ & ->)].
  - destruct (CorrelationType_eqb c NONE); [reflexivity|].
    rewrite (find_skip_last _ _ _ Hnew). reflexivity.
  - rewrite Hcs.
    rewrite (find_skip _ pre post old (samePair_other a b x y old Hne Hold)).
    destruct (CorrelationType_eqb c NONE); [reflexivity|].
    rewrite (find_skip _ pre post _ Hnew). reflexivity.
Qed.

Lemma updateCorrelation_other_pair_witness :
  getCorrelation (updateCorrelation "tech1" "tech2" NONE sampleData)
                 "tech3" "tech2"
  = getCorrelation sampleData "tech3" "tech2".
Proof.
  apply updateCorrelation_other_pair.
  intros [[H _] | [H _]]; discriminate.
Defined.

(** ** Clicks on the matrix *)

(** Under the one-record-per-pair invariant a pair reads back as exactly
    what the last update stored, None included. *)
Lemma getRelationshipStrength_after_update (c t : string)
    (s : RelationshipStrength) (prev : QFDData.t) :
  (relCount c t (QFDData.relationships prev) <= 1)%nat ->
  getRelationshipStrength (updateRelationship c t s prev) c t = s.
Proof.
  intro Hone. unfold getRelationshipStrength.
  destruct (updateRelationship_relationships c t s prev)
    as [(_ & Hnone & ->) | (pre & old & post & Hrels & Hold & Hpre & ->)].
  - destruct (RelationshipStrength_eqb s NONE_REL) eqn:E.
    + apply strength_eqb_NONE in E. subst s.
      rewrite (find_all_false _ _ Hnone). reflexivity.
    + rewrite find_app_split, (find_all_false _ _ Hnone). simpl.
      rewrite relPair_self. reflexivity.
  - rewrite Hrels, relCount_app, relCount_cons, Hold in Hone.
    destruct (RelationshipStrength_eqb s NONE_REL) eqn:E.
    + apply strength_eqb_NONE in E. subst s.
      rewrite find_app_split, (find_all_false _ _ Hpre).
      rewrite (find_all_false _ post); [reflexivity|].
      apply filter_length_zero. fold (relCount c t post). lia.
    + rewrite find_app_split, (find_all_false _ _ Hpre). simpl.
      rewrite relPair_self. reflexivity.
Qed.

Lemma pairCount_after_update (a b x y : string) (c : CorrelationType)
    (prev : QFDData.t) :
  (pairCount x y (QFDData.technicalCorrelations prev) <= 1)%nat ->
  (pairCount x y (QFDData.technicalCorrelations (updateCorrelation a b c prev))
   <= 1)%nat.
Proof.
  intro Hone.
  destruct (updateCorrelation_correlations a b c prev)
    as [(_ & Hnone & ->) | (pre & old & post & Hcs & Hold & Hpre & ->)].
  - destruct (CorrelationType_eqb c NONE); [exact Hone|].
    rewrite pairCount_app, pairCount_cons.
    change (pairCount x y []) with 0%nat.
    destruct (samePair x y (spec_canonical a b c)) eqn:E; [|lia].
    rewrite pairCount_all_false; [lia|].
    intros r Hr. destruct (samePair x y r) eqn:Er; [|reflexivity].
    pose proof (samePair_transfer x y r _ Er E a b) as Ht.
    rewrite samePair_canonical, (Hnone r Hr) in Ht. discriminate.
  - rewrite Hcs, pairCount_app, pairCount_cons in Hone.
    destruct (CorrelationType_eqb c NONE).
    + rewrite pairCount_app. lia.
    + rewrite pairCount_app, pairCount_cons.
      rewrite (samePair_transfer a b _ old (samePair_canonical a b c) Hold x y).
      exact Hone.
Qed.

Lemma getCorrelation_after_update (a b : string) (c : CorrelationType)
    (prev : QFDData.t) :
  (pairCount a b (QFDData.technicalCorrelations prev) <= 1)%nat ->
  getCorrelation (updateCorrelation a b c prev) a b = c.
Proof.
  intro Hone. unfold getCorrelation.
  destruct (updateCorrelation_correlations a b c prev)
    as [(_ & Hnone & ->) | (pre & old & post & Hcs & Hold & Hpre & ->)].
  - destruct (CorrelationType_eqb c NONE) eqn:E.
    + apply correlation_eqb_NONE in E. subst c.
      rewrite (find_all_false _ _ Hnone). reflexivity.
    + rewrite find_app_split, (find_all_false _ _ Hnone). simpl.
      rewrite samePair_canonical. apply spec_canonical_correlation.
  - rewrite Hcs, pairCount_app, pairCount_cons, Hold in Hone.
    destruct (CorrelationType_eqb c NONE) eqn:E.
    + apply correlation_eqb_NONE in E. subst c.
      rewrite find_app_split, (find_all_false _ _ Hpre).
      rewrite (find_all_false _ post); [reflexivity|].
      apply filter_length_zero. fold (pairCount a b post). lia.
    + rewrite find_app_split, (find_all_false _ _ Hpre). simpl.
      rewrite samePair_canonical. apply spec_canonical_correlation.
Qed.

(** X25. On a store with one record per pair, a click on a relationship
    cell moves the pair to the next strength in the order None, Weak,
    Medium, Strong and back to None, keeps the invariant, and four clicks
    bring the cell back to what it showed. *)
Theorem clickRelationship_cycle (c t : string) (data : QFDData.t) :
  onePerRelationship (QFDData.relationships data) ->
  getRelationshipStrength (clickRelationship c t data) c t
  = match getRelationshipStrength data c t with
    | NONE_REL => WEAK
    | WEAK => MEDIUM
    | MEDIUM => STRONG
    | STRONG => NONE_REL
    end
  /\ onePerRelationship (QFDData.relationships (clickRelationship c t data))
  /\ getRelationshipStrength (Nat.iter 4 (clickRelationship c t) data) c t
     = getRelationshipStrength data c t.
Proof.
  assert (Hstep : forall d,
             onePerRelationship (QFDData.relationships d) ->
             getRelationshipStrength (clickRelationship c t d) c t
             = match getRelationshipStrength d c t with
               | NONE_REL => WEAK
               | WEAK => MEDIUM
               | MEDIUM => STRONG
               | STRONG => NONE_REL
               end
             /\ onePerRelationship
                  (QFDData.relationships (clickRelationship c t d))).
  { intros d Hd. unfold clickRelationship, cycleRelationship. split.
    - rewrite getRelationshipStrength_after_update by apply Hd.
      destruct (getRelationshipStrength d c t); reflexivity.
    - intros c' t'. apply relCount_after_update. apply Hd. }
  intro H0.
  destruct (Hstep _ H0) as [E1 H1].
  destruct (Hstep _ H1) as [E2 H2].
  destruct (Hstep _ H2) as [E3 H3].
  destruct (Hstep _ H3) as [E4 _].
  split; [exact E1|]. split; [exact H1|].
  cbn [Nat.iter nat_rect]. rewrite E4, E3, E2, E1.
  destruct (getRelationshipStrength data c t); reflexivity.
Qed.

Lemma clickRelationship_cycle_witness :
  getRelationshipStrength
    (Nat.iter 4 (clickRelationship "cust1" "tech1") initialData)
    "cust1" "tech1"
  = getRelationshipStrength initialData "cust1" "tech1".
Proof.
  apply (clickRelationship_cycle "cust1" "tech1" initialData).
  exact initialData_onePerRelationship.
Defined.

(** X26. On a store with one record per unordered pair, a click on a
    correlation cell moves the pair to the next value in the order None,
    Positive, StrongPositive, Negative, StrongNegative and back to None,
    keeps the invariant, and five clicks bring the cell back to what it
    showed. *)
Theorem clickCorrelation_cycle (a b : string) (data : QFDData.t) :
  onePerPair (QFDData.technicalCorrelations data) ->
  getCorrelation (clickCorrelation a b data) a b
  = match getCorrelation data a b with
    | NONE => POSITIVE
    | POSITIVE => STRONG_POSITIVE
    | STRONG_POSITIVE => NEGATIVE
    | NEGATIVE => STRONG_NEGATIVE
    | STRONG_NEGATIVE => NONE
    end
  /\ onePerPair (QFDData.technicalCorrelations (clickCorrelation a b data))
  /\ getCorrelation (Nat.iter 5 (clickCorrelation a b) data) a b
     = getCorrelation data a b.
Proof.
  assert (Hstep : forall d,
             onePerPair (QFDData.technicalCorrelations d) ->
             getCorrelation (clickCorrelation a b d) a b
             = match getCorrelation d a b with
               | NONE => POSITIVE
               | POSITIVE => STRONG_POSITIVE
               | STRONG_POSITIVE => NEGATIVE
               | NEGATIVE => STRONG_NEGATIVE
               | STRONG_NEGATIVE => NONE
               end
             /\ onePerPair
                  (QFDData.technicalCorrelations (clickCorrelation a b d))).
  { intros d Hd. unfold clickCorrelation, cycleCorrelation. split.
    - rewrite getCorrelation_after_update by apply Hd.
      destruct (getCorrelation d a b); reflexivity.
    - intros x y. apply pairCount_after_update. apply Hd. }
  intro H0.
  destruct (Hstep _ H0) as [E1 H1].
  destruct (Hstep _ H1) as [E2 H2].
  destruct (Hstep _ H2) as [E3 H3].
  destruct (Hstep _ H3) as [E4 H4].
  destruct (Hstep _ H4) as [E5 _].
  split; [exact E1|]. split; [exact H1|].
  cbn [Nat.iter nat_rect]. rewrite E5, E4, E3, E2, E1.
  destruct (getCorrelation data a b); reflexivity.
Qed.

Lemma clickCorrelation_cycle_witness :
  getCorrelation (Nat.iter 5 (clickCorrelation "tech1" "tech2") initialData)
                 "tech1" "tech2"
  = getCorrelation initialData "tech1" "tech2".
Proof.
  apply (clickCorrelation_cycle "tech1" "tech2" initialData).
  intros x y. apply Nat.le_0_l.
Defined.

(** ** Removing requirements *)

Lemma find_filter_kept {A : Type} (f keep : A -> bool) (xs : list A) :
  (forall x, In x xs -> f x = true -> keep x = true) ->
  find f (filter keep xs) = find f xs.
Proof.
  induction xs as [|x rest IH]; intro H; simpl; [reflexivity|].
  destruct (keep x) eqn:K; simpl.
  - destruct (f x); [reflexivity|].
    apply IH. intros y Hy. apply H. right. exact Hy.
  - destruct (f x) eqn:F.
    + rewrite (H x (or_introl eq_refl) F) in K. discriminate.
    + apply IH. intros y Hy. apply H. right. exact Hy.
Qed.

Lemma map_filter_commute {A B : Type} (g g' : A -> B) (k : A -> bool)
    (k' : B -> bool) (xs : list A) :
  (forall x, k' (g x) = k x) ->
  (forall x, In x xs -> k x = true -> g' x = g x) ->
  map g' (filter k xs) = filter k' (map g xs).
Proof.
  intros Hk Hg. induction xs as [|x rest IH]; simpl; [reflexivity|].
  rewrite Hk. destruct (k x) eqn:K; simpl.
  - rewrite (Hg x (or_introl eq_refl) K), IH; [reflexivity|].
    intros y Hy. apply Hg. right. exact Hy.
  - apply IH. intros y Hy. apply Hg. right. exact Hy.
Qed.

(** X27. Removing a technical requirement removes its entry, and only its
    entry, from the priority list: the other entries keep their order and
    their scores.  No stored relationship or correlation names the removed
    identifier afterwards, and correlations that named existing
    requirements still do. *)
Theorem removeTechnicalRequirement_purges (id : string) (prev : QFDData.t) :
  let next := removeTechnicalRequirement id prev in
  calculateTechnicalPriorities next
  = filter (fun p => negb (id_eqb (TechnicalPriority.id p) (Some id)))
           (calculateTechnicalPriorities prev)
  /\ ~ hasTechReq next id
  /\ (forall r, In r (QFDData.relationships next) ->
                Relationship.technicalReqId r <> id)
  /\ (forall corr, In corr (QFDData.technicalCorrelations next) ->
                   TechnicalCorrelation.techReq1Id corr <> id
                   /\ TechnicalCorrelation.techReq2Id corr <> id)
  /\ (correlationsResolved prev -> correlationsResolved next).
Proof.
  cbv zeta. split; [|split; [|split; [|split]]].
  - unfold calculateTechnicalPriorities, removeTechnicalRequirement.
    cbn [QFDData.technicalRequirements QFDData.customerRequirements
         QFDData.relationships].
    apply map_filter_commute.
    + intro t. reflexivity.
    + intros t _ Hkeep. f_equal.
      apply fold_left_pointwise. intros sum custReq.
      rewrite find_filter_kept; [reflexivity|].
      intros r _ Hr. unfold relationshipMatches in Hr.
      apply andb_true_iff in Hr. destruct Hr as [_ Hr].
      apply id_eqb_eq in Hr.
      destruct (String.eqb_spec (Relationship.technicalReqId r) id) as [E|E];
        [|reflexivity].
      rewrite <- Hr, E, id_eqb_refl in Hkeep. discriminate.
  - unfold hasTechReq, removeTechnicalRequirement.
    cbn [QFDData.technicalRequirements].
    intro H. apply in_map_iff in H. destruct H as (t & Hid & Hin).
    apply filter_In in Hin. destruct Hin as [_ Hk].
    rewrite Hid, id_eqb_refl in Hk. discriminate.
  - intros r Hr. unfold removeTechnicalRequirement in Hr.
    cbn [QFDData.relationships] in Hr.
    apply filter_In in Hr. destruct Hr as [_ Hk].
    apply negb_true_iff, String.eqb_neq in Hk. exact Hk.
  - intros corr Hc. unfold removeTechnicalRequirement in Hc.
    cbn [QFDData.technicalCorrelations] in Hc.
    apply filter_In in Hc. destruct Hc as [_ Hk].
    apply andb_true_iff in Hk. destruct Hk as [H1 H2].
    apply negb_true_iff, String.eqb_neq in H1.
    apply negb_true_iff, String.eqb_neq in H2.
    split; assumption.
  - unfold correlationsResolved, hasTechReq, removeTechnicalRequirement.
    cbn [QFDData.technicalCorrelations QFDData.technicalRequirements].
    rewrite !Forall_forall. intros H corr Hc.
    apply filter_In in Hc. destruct Hc as [Hin Hk].
    apply andb_true_iff in Hk. destruct Hk as [H1 H2].
    apply negb_true_iff, String.eqb_neq in H1.
    apply negb_true_iff, String.eqb_neq in H2.
    destruct (H corr Hin) as [Hr1 Hr2].
    assert (Hkeep : forall i, i <> id ->
              In (Some i)
                 (map TechnicalRequirement.id
                      (QFDData.technicalRequirements prev)) ->
              In (Some i)
                 (map TechnicalRequirement.id
                      (filter (fun req =>
                                 negb (id_eqb (TechnicalRequirement.id req)
                                              (Some id)))
                              (QFDData.technicalRequirements prev)))).
    { intros i Hi Hin'. apply in_map_iff in Hin'.
      destruct Hin' as (t & Hid & Ht).
      apply in_map_iff. exists t. split; [exact Hid|].
      apply filter_In. split; [exact Ht|].
      rewrite Hid. apply negb_true_iff.
      destruct (id_eqb (Some i) (Some id)) eqn:E; [|reflexivity].
      apply id_eqb_eq in E. congruence. }
    split; apply Hkeep; assumption.
Qed.

Lemma spec_strength_filter_customer (id : string)
    (rels : list Relationship.t) (c : CustomerRequirement.t)
    (t : TechnicalRequirement.t) :
  CustomerRequirement.id c <> Some id ->
  spec_strength
    (filter (fun rel => negb (String.eqb (Relationship.customerReqId rel) id))
            rels) c t
  = spec_strength rels c t.
Proof.
  intro Hc. induction rels as [|r rest IH]; simpl; [reflexivity|].
  destruct (String.eqb_spec (Relationship.customerReqId r) id) as [E|E]; simpl.
  - rewrite IH. unfold relationshipMatches. rewrite E.
    destruct (id_eqb (Some id) (CustomerRequirement.id c)) eqn:Eid.
    + apply id_eqb_eq in Eid. congruence.
    + reflexivity.
  - rewrite IH. reflexivity.
Qed.

Lemma Qsum_partition {A : Type} (f : A -> Q) (k : A -> bool) (l : list A) :
  Qsum (map f l)
  == Qsum (map f (filter k l)) + Qsum (map f (filter (fun x => negb (k x)) l)).
Proof.
  induction l as [|x l IH]; simpl; [ring|].
  destruct (k x); simpl; rewrite IH; ring.
Qed.

(** X28. Removing a customer requirement lowers each score by exactly the
    contributions of the removed requirement(s): the purge of their
    relationship records changes nothing for the customers that stay.  With
    importances that are not negative, no score grows. *)
Theorem removeCustomerRequirement_scores (id : string) (prev : QFDData.t)
    (i : nat) (t : TechnicalRequirement.t) :
  nth_error (QFDData.technicalRequirements prev) i = Some t ->
  exists p p',
    nth_error (calculateTechnicalPriorities prev) i = Some p
    /\ nth_error
         (calculateTechnicalPriorities (removeCustomerRequirement id prev)) i
       = Some p'
    /\ TechnicalPriority.score p
       == TechnicalPriority.score p'
          + Qsum (map (fun c =>
                         CustomerRequirement.importance c
                         * spec_strength (QFDData.relationships prev) c t)
                      (filter (fun c =>
                                 id_eqb (CustomerRequirement.id c) (Some id))
                              (QFDData.customerRequirements prev)))
    /\ ((forall c, In c (QFDData.customerRequirements prev) ->
                   0 <= CustomerRequirement.importance c) ->
        TechnicalPriority.score p' <= TechnicalPriority.score p).
Proof.
  intro Ht.
  destruct (calculateTechnicalPriorities_nth prev i t Ht)
    as (p & Hp & _ & _ & Hs & _).
  destruct (calculateTechnicalPriorities_nth
              (removeCustomerRequirement id prev) i t Ht)
    as (p' & Hp' & _ & _ & Hs' & _).
  exists p, p'. split; [exact Hp|]. split; [exact Hp'|].
  set (keep := fun c : CustomerRequirement.t =>
                 negb (id_eqb (CustomerRequirement.id c) (Some id))).
  assert (Hnext : spec_score (removeCustomerRequirement id prev) t
                  = Qsum (map (fun c =>
                                 CustomerRequirement.importance c
                                 * spec_strength (QFDData.relationships prev) c t)
                              (filter keep
                                 (QFDData.customerRequirements prev)))).
  { unfold spec_score, removeCustomerRequirement.
    cbn [QFDData.customerRequirements QFDData.relationships].
    f_equal. apply map_ext_in. intros c Hc.
    apply filter_In in Hc. destruct Hc as [_ Hk].
    rewrite spec_strength_filter_customer; [reflexivity|].
    intro E. unfold keep in Hk. rewrite E, id_eqb_refl in Hk. discriminate. }
  assert (Hsplit :
    TechnicalPriority.score p
    == TechnicalPriority.score p'
       + Qsum (map (fun c =>
                      CustomerRequirement.importance c
                      * spec_strength (QFDData.relationships prev) c t)
                   (filter (fun c =>
                              id_eqb (CustomerRequirement.id c) (Some id))
                           (QFDData.customerRequirements prev)))).
  { rewrite Hs, Hs', Hnext. unfold spec_score.
    rewrite (Qsum_partition _ keep (QFDData.customerRequirements prev)).
    apply Qplus_comp; [reflexivity|].
    rewrite (filter_ext (fun x => negb (keep x))
                        (fun c => id_eqb (CustomerRequirement.id c) (Some id)));
      [reflexivity|].
    intro c. unfold keep. apply negb_involutive. }
  split; [exact Hsplit|].
  intro Himp. rewrite Hsplit.
  assert (0 <= Qsum (map (fun c =>
                            CustomerRequirement.importance c
                            * spec_strength (QFDData.relationships prev) c t)
                         (filter (fun c =>
                                    id_eqb (CustomerRequirement.id c) (Some id))
                                 (QFDData.customerRequirements prev)))).
  { apply Qsum_nonneg. apply Forall_map. apply Forall_forall.
    intros c Hc. apply filter_In in Hc. destruct Hc as [Hc _].
    apply Qmult_le_0_compat; [apply Himp; exact Hc | apply spec_strength_nonneg]. }
  lra.
Qed.

Lemma removeCustomerRequirement_scores_witness :
  exists p p',
    nth_error (calculateTechnicalPriorities sampleData) 0 = Some p
    /\ nth_error
         (calculateTechnicalPriorities
            (removeCustomerRequirement "cust2" sampleData)) 0
       = Some p'
    /\ TechnicalPriority.score p' <= TechnicalPriority.score p.
Proof.
  destruct (removeCustomerRequirement_scores "cust2" sampleData 0
              (TechnicalRequirement.mk (Some "tech1"%string)
                 "Response time" "ms" "<200" 3 0) eq_refl)
    as (p & p' & Hp & Hp' & _ & Hle).
  exists p, p'. split; [exact Hp|]. split; [exact Hp'|].
  apply Hle. exact sampleData_importances.
Defined.

(** ** Competitor ratings *)

Lemma mapi_from_length {A B : Type} (f : A -> nat -> B) (index : nat)
    (xs : list A) :
  List.length (mapi_from f index xs) = List.length xs.
Proof.
  revert index. induction xs as [|x rest IH]; intro index; simpl;
    [reflexivity | rewrite IH; reflexivity].
Qed.

Lemma mapi_from_nth {A B : Type} (f : A -> nat -> B) (index n : nat)
    (xs : list A) (x : A) :
  nth_error xs n = Some x ->
  nth_error (mapi_from f index xs) n = Some (f x (index + n)%nat).
Proof.
  revert index n. induction xs as [|x0 rest IH]; intros index n H.
  - destruct n; discriminate.
  - destruct n as [|n]; simpl in *.
    + injection H as ->. rewrite Nat.add_0_r. reflexivity.
    + rewrite (IH (S index) n H). f_equal. f_equal. lia.
Qed.

(** X29. After [updateCompetitorNames] every customer requirement has
    exactly one rating per competitor name: a rating that existed and was
    not 0 is kept, a missing rating and a rating equal to 0 both become 3.
    Adding a customer requirement (with the competitor names the callback
    captured being those of the state) and removing one keep the
    alignment. *)
Theorem competitor_ratings_aligned :
  (forall names prev, ratingsAligned (updateCompetitorNames names prev))
  /\ (forall names prev n req index name,
         nth_error (QFDData.customerRequirements prev) n = Some req ->
         nth_error names index = Some name ->
         exists req',
           nth_error (QFDData.customerRequirements
                        (updateCompetitorNames names prev)) n = Some req'
           /\ CustomerRequirement.id req' = CustomerRequirement.id req
           /\ CustomerRequirement.importance req'
              = CustomerRequirement.importance req
           /\ forall r,
                nth_error (CustomerRequirement.competitorRatings req') index
                = Some r ->
                match nth_error (CustomerRequirement.competitorRatings req)
                                index with
                | Some old => (~ old == 0 -> r = old) /\ (old == 0 -> r = 3)
                | None => r = 3
                end)
  /\ (forall newId data prev,
         QFDData.competitorNames data = QFDData.competitorNames prev ->
         ratingsAligned prev ->
         ratingsAligned (addCustomerRequirement newId data prev))
  /\ (forall id prev,
         ratingsAligned prev ->
         ratingsAligned (removeCustomerRequirement id prev)).
Proof.
  split; [|split; [|split]].
  - intros names prev. unfold ratingsAligned, updateCompetitorNames.
    cbn [QFDData.customerRequirements QFDData.competitorNames].
    apply Forall_map. apply Forall_forall. intros req _.
    cbn [CustomerRequirement.competitorRatings].
    apply mapi_from_length.
  - intros names prev n req index name Hreq Hname.
    unfold updateCompetitorNames. cbn [QFDData.customerRequirements].
    rewrite nth_error_map, Hreq. cbn [option_map].
    eexists. split; [reflexivity|].
    cbn [CustomerRequirement.id CustomerRequirement.importance
         CustomerRequirement.competitorRatings].
    split; [reflexivity|]. split; [reflexivity|].
    intros r Hr.
    rewrite (mapi_from_nth _ 0 index names name Hname) in Hr.
    injection Hr as <-. unfold ratingOr3. simpl.
    destruct (nth_error (CustomerRequirement.competitorRatings req) index)
      as [old|]; [|reflexivity].
    destruct (Qeq_bool old 0) eqn:E.
    + apply Qeq_bool_iff in E. split; [intro H; contradiction | reflexivity].
    + apply Qeq_bool_neq in E. split; [reflexivity | intro H; contradiction].
  - intros newId data prev Hnames H.
    unfold ratingsAligned, addCustomerRequirement in *.
    cbn [QFDData.customerRequirements QFDData.competitorNames].
    apply Forall_app. split; [exact H|].
    constructor; [|constructor].
    cbn [CustomerRequirement.competitorRatings].
    rewrite length_map, Hnames. reflexivity.
  - intros id prev H.
    unfold ratingsAligned, removeCustomerRequirement in *.
    cbn [QFDData.customerRequirements QFDData.competitorNames].
    rewrite Forall_forall in *. intros req Hreq.
    apply filter_In in Hreq. apply H. apply Hreq.
Qed.

(** ** Adding and removing *)





(** ** Per-pair recommendation *)

Lemma Qgtb_Qeq (x x' k : Q) : x == x' -> Qgtb x k = Qgtb x' k.
Proof.
  intro H. destruct (Qgtb x' k) eqn:E.
  - apply Qgtb_true. apply Qgtb_true in E. rewrite H. exact E.
  - apply Qgtb_false. apply Qgtb_false in E. rewrite H. exact E.
Qed.

(** The recommendation only depends on the value of the two scores. *)
Lemma getCorrelationRecommendation_Qeq (c : CorrelationType)
    (s1 s2 s1' s2' : Q) :
  s1 == s1' -> s2 == s2' ->
  getCorrelationRecommendation c s1 s2 = getCorrelationRecommendation c s1' s2'.
Proof.
  intros H1 H2. unfold getCorrelationRecommendation.
  assert (H : s1 + s2 == s1' + s2') by (rewrite H1, H2; reflexivity).
  destruct c; try reflexivity; rewrite (Qgtb_Qeq _ _ _ H); reflexivity.
Qed.

Lemma pushInsight_keeps (data : QFDData.t) (prios : list TechnicalPriority.t)
    (acc : list CorrelationInsight.t) (corr : TechnicalCorrelation.t)
    (ins : CorrelationInsight.t) :
  In ins acc -> In ins (pushInsight data prios acc corr).
Proof.
  intro H. unfold pushInsight.
  repeat match goal with
    | |- context [match find ?f ?l with Some _ => _ | None => _ end] =>
        destruct (find f l)
    end; try exact H; apply in_or_app; left; exact H.
Qed.

Lemma fold_pushInsight_keeps (data : QFDData.t)
    (prios : list TechnicalPriority.t) (cs : list TechnicalCorrelation.t)
    (acc : list CorrelationInsight.t) (ins : CorrelationInsight.t) :
  In ins acc -> In ins (fold_left (pushInsight data prios) cs acc).
Proof.
  revert acc. induction cs as [|corr cs IH]; intros acc H; simpl.
  - exact H.
  - apply IH. apply pushInsight_keeps. exact H.
Qed.

(** A record whose two identifiers name technical requirements pushes an
    insight built from the raw scores of those two requirements. *)
Lemma pushInsight_adds (data : QFDData.t) (acc : list CorrelationInsight.t)
    (corr : TechnicalCorrelation.t) (t1 t2 : TechnicalRequirement.t) :
  In t1 (QFDData.technicalRequirements data) ->
  In t2 (QFDData.technicalRequirements data) ->
  TechnicalRequirement.id t1 = Some (TechnicalCorrelation.techReq1Id corr) ->
  TechnicalRequirement.id t2 = Some (TechnicalCorrelation.techReq2Id corr) ->
  exists ins,
    In ins (pushInsight data (calculateTechnicalPriorities data) acc corr)
    /\ CorrelationInsight.correlation ins
       = TechnicalCorrelation.correlation corr
    /\ CorrelationInsight.priority1Score ins == spec_score data t1
    /\ CorrelationInsight.priority2Score ins == spec_score data t2
    /\ CorrelationInsight.recommendation ins
       = getCorrelationRecommendation (TechnicalCorrelation.correlation corr)
           (spec_score data t1) (spec_score data t2).
Proof.
  intros Hin1 Hin2 Hid1 Hid2.
  assert (Hh1 : hasTechReq data (TechnicalCorrelation.techReq1Id corr)).
  { unfold hasTechReq. rewrite <- Hid1. apply in_map. exact Hin1. }
  assert (Hh2 : hasTechReq data (TechnicalCorrelation.techReq2Id corr)).
  { unfold hasTechReq. rewrite <- Hid2. apply in_map. exact Hin2. }
  destruct (find_by_id_techReq data _ Hh1) as (r1 & Hr1).
  destruct (find_by_id_techReq data _ Hh2) as (r2 & Hr2).
  destruct (find_priority data t1 Hin1) as (p1 & Hp1 & Hs1).
  destruct (find_priority data t2 Hin2) as (p2 & Hp2 & Hs2).
  rewrite Hid1 in Hp1. rewrite Hid2 in Hp2.
  unfold pushInsight. cbv zeta. rewrite Hr1, Hr2, Hp1, Hp2.
  eexists. split; [apply in_or_app; right; left; reflexivity|].
  cbn [CorrelationInsight.correlation CorrelationInsight.priority1Score
       CorrelationInsight.priority2Score CorrelationInsight.recommendation].
  split; [reflexivity|]. split; [exact Hs1|]. split; [exact Hs2|].
  apply getCorrelationRecommendation_Qeq; assumption.
Qed.

(** C7. The recommendation of a pair depends on whether score1 + score2
    exceeds the threshold of the correlation value: 50 for strong-positive,
    40 for positive, 60 for negative and 50 for strong-negative, each value
    having its own text above the threshold and its own text at or below it;
    a None record gets the independent text.  A StrongPositive pair with raw
    scores 30 and 25 receives the HIGH PRIORITY message.  For every
    correlation record whose two identifiers name technical requirements,
    [calculateCorrelationImpact] produces an insight whose two scores are
    the raw scores (sums of importance times strength, not normalised
    percentages) of those two requirements and whose recommendation is
    computed from these two raw scores. *)
Theorem getCorrelationRecommendation_spec :
  (forall score1 score2,
      (spec_threshold STRONG_POSITIVE < score1 + score2 ->
       getCorrelationRecommendation STRONG_POSITIVE score1 score2
       = "HIGH PRIORITY: Focus on solutions that address both requirements simultaneously for maximum impact."%string)
      /\ (score1 + score2 <= spec_threshold STRONG_POSITIVE ->
          getCorrelationRecommendation STRONG_POSITIVE score1 score2
          = "Consider bundling these requirements in your development approach."%string))
  /\ (forall score1 score2,
         (spec_threshold POSITIVE < score1 + score2 ->
          getCorrelationRecommendation POSITIVE score1 score2
          = "Look for integrated solutions that can improve both requirements together."%string)
         /\ (score1 + score2 <= spec_threshold POSITIVE ->
             getCorrelationRecommendation POSITIVE score1 score2
             = "Moderate synergy - consider combined approaches when possible."%string))
  /\ (forall score1 score2,
         (spec_threshold NEGATIVE < score1 + score2 ->
          getCorrelationRecommendation NEGATIVE score1 score2
          = "CRITICAL: High-priority requirements in conflict. Develop compromise solutions or phased approach."%string)
         /\ (score1 + score2 <= spec_threshold NEGATIVE ->
             getCorrelationRecommendation NEGATIVE score1 score2
             = "Monitor trade-offs carefully during implementation."%string))
  /\ (forall score1 score2,
         (spec_threshold STRONG_NEGATIVE < score1 + score2 ->
          getCorrelationRecommendation STRONG_NEGATIVE score1 score2
          = "URGENT: Strong conflict between important requirements. Consider alternative approaches or accept trade-offs."%string)
         /\ (score1 + score2 <= spec_threshold STRONG_NEGATIVE ->
             getCorrelationRecommendation STRONG_NEGATIVE score1 score2
             = "Strong conflict exists - may need to prioritize one over the other."%string))
  /\ (forall score1 score2,
         getCorrelationRecommendation NONE score1 score2
         = "Requirements can be addressed independently."%string)
  /\ (spec_threshold STRONG_POSITIVE == 50
      /\ spec_threshold POSITIVE == 40
      /\ spec_threshold NEGATIVE == 60
      /\ spec_threshold STRONG_NEGATIVE == 50)
  /\ getCorrelationRecommendation STRONG_POSITIVE 30 25
     = "HIGH PRIORITY: Focus on solutions that address both requirements simultaneously for maximum impact."%string
  /\ (forall data corr t1 t2,
         In corr (QFDData.technicalCorrelations data) ->
         In t1 (QFDData.technicalRequirements data) ->
         In t2 (QFDData.technicalRequirements data) ->
         TechnicalRequirement.id t1
         = Some (TechnicalCorrelation.techReq1Id corr) ->
         TechnicalRequirement.id t2
         = Some (TechnicalCorrelation.techReq2Id corr) ->
         exists ins,
           In ins (correlationInsights (calculateCorrelationImpact data))
           /\ CorrelationInsight.correlation ins
              = TechnicalCorrelation.correlation corr
           /\ CorrelationInsight.priority1Score ins
              == Qsum (map (fun c =>
                              CustomerRequirement.importance c
                              * spec_strength (QFDData.relationships data) c t1)
                           (QFDData.customerRequirements data))
           /\ CorrelationInsight.priority2Score ins
              == Qsum (map (fun c =>
                              CustomerRequirement.importance c
                              * spec_strength (QFDData.relationships data) c t2)
                           (QFDData.customerRequirements data))
           /\ CorrelationInsight.recommendation ins
              = getCorrelationRecommendation
                  (TechnicalCorrelation.correlation corr)
                  (spec_score data t1) (spec_score data t2))
  /\ (forall data ins,
         In ins (correlationInsights (calculateCorrelationImpact data)) ->
         insight_from (priorities (calculateCorrelationImpact data)) ins).
Proof.
  repeat match goal with
    | |- (forall score1 score2, (_ -> _) /\ (_ -> _)) /\ _ =>
        split;
        [intros score1 score2; unfold getCorrelationRecommendation;
         split; intro H;
         [apply Qgtb_true in H | apply Qgtb_false in H];
         unfold spec_threshold in H; rewrite H; reflexivity|]
    end.
  split; [intros score1 score2; reflexivity|].
  split; [unfold spec_threshold; repeat split; reflexivity|].
  split; [reflexivity|].
  split.
  - intros data corr t1 t2 Hcorr Hin1 Hin2 Hid1 Hid2.
    unfold calculateCorrelationImpact. cbn [correlationInsights].
    fold (spec_score data t1). fold (spec_score data t2).
    generalize (@nil CorrelationInsight.t).
    induction (QFDData.technicalCorrelations data) as [|corr0 cs IH];
      intro acc; [contradiction|].
    simpl. destruct Hcorr as [-> | Hcorr].
    + destruct (pushInsight_adds data acc corr t1 t2 Hin1 Hin2 Hid1 Hid2)
        as (ins & Hins & Hrest).
      exists ins. split; [|exact Hrest].
      apply fold_pushInsight_keeps. exact Hins.
    + apply IH. exact Hcorr.
  - intros data ins Hin.
    unfold calculateCorrelationImpact in *. simpl in *.
    pose proof (fold_pushInsight_insight_from data
                  (calculateTechnicalPriorities data)
                  (QFDData.technicalCorrelations data) [] (Forall_nil _)) as HF.
    rewrite Forall_forall in HF. apply HF. exact Hin.
Qed.

Lemma getCorrelationRecommendation_spec_witness :
  exists ins,
    In ins (correlationInsights (calculateCorrelationImpact sampleData))
    /\ CorrelationInsight.correlation ins = NEGATIVE
    /\ CorrelationInsight.recommendation ins
       = "CRITICAL: High-priority requirements in conflict. Develop compromise solutions or phased approach."%string.
Proof.
  destruct getCorrelationRecommendation_spec
    as (_ & _ & Hneg & _ & _ & _ & _ & Hins & _).
  destruct (Hins sampleData
              (TechnicalCorrelation.mk "tech1" "tech2" NEGATIVE)
              (TechnicalRequirement.mk (Some "tech1"%string)
                 "Response time" "ms" "<200" 3 0)
              (TechnicalRequirement.mk (Some "tech2"%string)
                 "UI complexity score" "points" "<50" 2 0))
    as (ins & Hin & Hc & _ & _ & Hr);
    [left; reflexivity | left; reflexivity | right; left; reflexivity
    | reflexivity | reflexivity |].
  exists ins. split; [exact Hin|]. split; [exact Hc|].
  rewrite Hr. apply (Hneg _ _). reflexivity.
Defined.
